(** * Confidential-amount blinding and unblinding (src/blind.cpp)

    A shallow embedding of [UnblindOutput] and [BlindOutputs] and the
    properties of them that the specification states.

    The elliptic-curve library (secp256k1 with the Pedersen-commitment and
    range-proof extensions) and the host transaction system (keys, hashing,
    random bytes, configuration, money constants) are not part of the
    repository.  They enter the development as the fields of the class
    [Host]; what the library documents about them is collected, law by
    law, in separate classes that only the theorems needing them assume. *)

From Stdlib Require Import ZArith Lia Bool String.
From Stdlib Require Strings.Byte.
From stdpp Require Import base list.

(** ** Bytes and buffers *)

Abbreviation byte := Byte.byte.
Abbreviation x00 := Byte.x00.
Abbreviation bytes := (list Byte.byte).

(** [std::vector<unsigned char>::resize(n)]: keeps the first [n] bytes and
    pads with zero bytes. *)
Definition vec_resize (n : nat) (v : bytes) : bytes := resize n x00 v.

(** A C function that is handed [&v[0]] and writes [src] there: the bytes
    written replace a prefix of [v]; the vector keeps its size. *)
Definition write_at0 (v src : bytes) : bytes :=
  take (length v) (src ++ drop (length src) v).

(** [memcpy(&dst[0], &src[0], n)]. *)
Definition memcpy (dst src : bytes) (n : nat) : bytes :=
  write_at0 dst (take n src).

(** ** Machine integers *)

Definition to_uint64 (z : Z) : Z := (z mod 2 ^ 64)%Z.
Definition to_int64 (z : Z) : Z := ((z + 2 ^ 63) mod 2 ^ 64 - 2 ^ 63)%Z.
(** [(int)x] for a 32-bit [int]. *)
Definition to_int (z : Z) : Z := ((z + 2 ^ 31) mod 2 ^ 32 - 2 ^ 31)%Z.

(** ** Transaction data (primitives/transaction.h) *)

(** [CTxOutValue]: the three byte vectors of a confidential value.  Whether
    it holds an explicit amount is decided by [IsAmount] below. *)
Record CTxOutValue := mkCTxOutValue {
  vchCommitment : bytes;
  vchRangeproof : bytes;
  vchNonceCommitment : bytes
}.

Record CTxOut := mkCTxOut {
  nValue : CTxOutValue;
  scriptPubKey : bytes
}.

Record CTxIn := mkCTxIn {
  prevout_hash : bytes;
  prevout_n : Z;
  scriptSig : bytes;
  nSequence : Z
}.

Record CMutableTransaction := mkCMutableTransaction {
  vin : list CTxIn;
  vout : list CTxOut
}.

(** ** Results of the library calls *)

(** [secp256k1_rangeproof_rewind]: the [int] it returns, the bytes it writes
    through [blind_out] and the [uint64_t] it writes through [value_out]. *)
Record rewind_result := mkRewind {
  rw_res : Z;
  rw_blind : bytes;
  rw_amount : Z
}.

(** [secp256k1_rangeproof_sign]: the [int] it returns, the proof bytes it
    writes and the length it stores through [plen]. *)
Record sign_result := mkSign {
  sg_res : Z;
  sg_proof : bytes;
  sg_len : Z
}.

(** ** The external interface *)

Class Host := {
  (** key.h, pubkey.h, random.h *)
  CKey : Type;
  CPubKey : Type;
  Rng : Type;
  (** [CPubKey(const std::vector<unsigned char>&)] *)
  CPubKey_of_vch : bytes -> CPubKey;
  IsValid : CPubKey -> bool;
  (** the bytes [begin() .. begin() + size()) of a public key *)
  pubkey_bytes : CPubKey -> bytes;
  (** the storage that [&pubkey[0]] points to *)
  pubkey_data : CPubKey -> bytes;
  GetPubKey : CKey -> CPubKey;
  ECDH : CKey -> CPubKey -> CPubKey;
  (** [CKey::MakeNewKey(true)] and [GetRandBytes(buf, n)] draw from the
      random source *)
  MakeNewKey : Rng -> CKey * Rng;
  GetRandBytes : Rng -> nat -> bytes * Rng;
  (** [CHash256().Write(..).Finalize(..)] *)
  Hash256 : bytes -> bytes;
  (** [CTxOutValue::IsAmount], [CTxOutValue::GetAmount] *)
  IsAmount : CTxOutValue -> bool;
  GetAmount : CTxOutValue -> Z;
  (** amount.h *)
  MAX_MONEY : Z;
  MoneyRange : Z -> bool;
  (** util.h: [int64_t GetArg(name, default)] *)
  GetArg : string -> Z -> Z;
  (** secp256k1: blind factor and amount, to return value and 33 bytes *)
  secp256k1_pedersen_commit : bytes -> Z -> Z * bytes;
  (** secp256k1: the factors, [n], [npositive], to return value and 32 bytes *)
  secp256k1_pedersen_blind_sum : list bytes -> nat -> nat -> Z * bytes;
  (** secp256k1: [plen] on entry, [min_value], commitment, blind, nonce,
      [exp], [min_bits], value *)
  secp256k1_rangeproof_sign :
    Z -> Z -> bytes -> bytes -> bytes -> Z -> Z -> Z -> sign_result;
  (** secp256k1: nonce, commitment, proof *)
  secp256k1_rangeproof_rewind : bytes -> bytes -> bytes -> rewind_result
}.

(** ** UnblindOutput *)

(** The [int] returned and the two reference parameters after the call. *)
Record unblind_result := mkUnblind {
  ub_ret : Z;
  ub_amount_out : Z;
  ub_blinding_factor_out : bytes
}.

Definition UnblindOutput {H : Host} (key : CKey) (txout : CTxOut)
    (amount_out : Z) (blinding_factor_out : bytes) : unblind_result :=
  if IsAmount (nValue txout) then
    mkUnblind (-1) (GetAmount (nValue txout)) (vec_resize 0 blinding_factor_out)
  else
    let ephemeral_key := CPubKey_of_vch (vchNonceCommitment (nValue txout)) in
    if negb (IsValid ephemeral_key) then
      mkUnblind 0 amount_out blinding_factor_out
    else
      let nonce_key := ECDH key ephemeral_key in
      let nonce := Hash256 (pubkey_bytes nonce_key) in
      let blinding_factor_out := vec_resize 32 blinding_factor_out in
      let r := secp256k1_rangeproof_rewind nonce
                 (vchCommitment (nValue txout)) (vchRangeproof (nValue txout)) in
      let blinding_factor_out := write_at0 blinding_factor_out (rw_blind r) in
      let res := rw_res r in
      let amount := rw_amount r in
      let ret := if (res =? 0)%Z then 0%Z else 1%Z in
      if (res =? 0)%Z || (to_uint64 MAX_MONEY <? amount)%Z
         || negb (MoneyRange (to_int64 amount))
      then mkUnblind ret 0 (vec_resize 0 blinding_factor_out)
      else mkUnblind ret (to_int64 amount) blinding_factor_out.

(** ** BlindOutputs *)

(** A call either returns or stops at a failed [assert]; in both cases the
    value carried is the state reached. *)
Inductive outcome (St : Type) : Type :=
| Returned (s : St)
| Aborted (s : St).
Arguments Returned {St} s.
Arguments Aborted {St} s.

Definition state_of {St : Type} (o : outcome St) : St :=
  match o with Returned s => s | Aborted s => s end.

Definition returned {St : Type} (o : outcome St) : bool :=
  match o with Returned _ => true | Aborted _ => false end.

Definition bind {St : Type} (o : outcome St) (k : St -> outcome St) : outcome St :=
  match o with Returned s => k s | Aborted s => Aborted s end.

(** [for (i = 0; i < n; i++) body]: the first [n] iterations, in order. *)
Fixpoint for_loop {St : Type} (n : nat) (body : nat -> St -> outcome St) (s : St)
  : outcome St :=
  match n with
  | O => Returned s
  | S k => bind (for_loop k body s) (body k)
  end.

(** The calls into the library and the random source that the claims speak
    about, recorded in the order they are made. *)
Inductive lib_call : Type :=
| Call_blind_sum (nOut : nat) (ptrs : list bytes) (n npositive : nat) (out : bytes)
| Call_GetRandBytes (nOut : nat) (out : bytes)
| Call_commit (nOut : nat) (blind : bytes) (amount : Z) (out : bytes)
| Call_sign (nOut : nat) (exp min_bits : Z) (proof_len : Z).

(** The locals of [BlindOutputs], the outputs of the transaction it was
    handed, the random source, and the record of calls.  [blindptrs] holds
    the factors pointed to: none of them is written after its address is
    taken.  The four counters are [int] in the source; each counts elements
    of the argument vectors, so they are kept as [nat]. *)
Record frame {H : Host} := mkFrame {
  f_vout : list CTxOut;
  f_blindptrs : list bytes;
  f_nBlindsIn : nat;
  f_nBlindsOut : nat;
  f_nToBlind : nat;
  f_nBlinded : nat;
  f_rng : Rng;
  f_calls : list lib_call
}.

Definition set_nValue (nOut : nat) (v : CTxOutValue) (l : list CTxOut) : list CTxOut :=
  alter (fun o => mkCTxOut v (scriptPubKey o)) nOut l.

(** Lines 71-77. *)
Definition inputs_body {H : Host} (input_blinding_factors : list bytes)
    (nIn : nat) (f : frame) : outcome frame :=
  match input_blinding_factors !! nIn with
  | None => Aborted f
  | Some b =>
    if negb (length b =? 0) then
      if negb (length b =? 32) then Aborted f
      else Returned (mkFrame H (f_vout f) (f_blindptrs f ++ [b])
                       (S (f_nBlindsIn f)) (f_nBlindsOut f) (f_nToBlind f)
                       (f_nBlinded f) (f_rng f) (f_calls f))
    else Returned f
  end.

(** Lines 81-92. *)
Definition outputs_body {H : Host} (output_blinding_factors : list bytes)
    (output_pubkeys : list CPubKey) (nOut : nat) (f : frame) : outcome frame :=
  match output_blinding_factors !! nOut, f_vout f !! nOut with
  | Some b, Some out =>
    if negb (Bool.eqb (negb (length b =? 0)) (negb (IsAmount (nValue out))))
    then Aborted f
    else if negb (length b =? 0) then
      if negb (length b =? 32) then Aborted f
      else Returned (mkFrame H (f_vout f) (f_blindptrs f ++ [b])
                       (f_nBlindsIn f) (S (f_nBlindsOut f)) (f_nToBlind f)
                       (f_nBlinded f) (f_rng f) (f_calls f))
    else
      match output_pubkeys !! nOut with
      | None => Aborted f
      | Some pk =>
        if IsValid pk
        then Returned (mkFrame H (f_vout f) (f_blindptrs f)
                         (f_nBlindsIn f) (f_nBlindsOut f) (S (f_nToBlind f))
                         (f_nBlinded f) (f_rng f) (f_calls f))
        else Returned f
      end
  | _, _ => Aborted f
  end.

(** Lines 102-135: one iteration of the loop that blinds.  The row
    [blind[nBlinded]] holds what blind-sum or the random source wrote to
    it; a failed [assert] ends the call in the state reached so far. *)
Definition blind_body {H : Host} (output_pubkeys : list CPubKey)
    (nOut : nat) (f : frame) : outcome frame :=
  match f_vout f !! nOut with
  | None => Aborted f
  | Some out =>
    if negb (IsAmount (nValue out)) then Returned f else
    match output_pubkeys !! nOut with
    | None => Aborted f
    | Some pk =>
      if negb (IsValid pk) then Returned f else
      let last := f_nBlinded f + 1 =? f_nToBlind f in
      let sum := secp256k1_pedersen_blind_sum (f_blindptrs f)
                   (f_nBlindsOut f + f_nBlindsIn f) (f_nBlindsIn f) in
      let rnd := GetRandBytes (f_rng f) 32 in
      let blind := if last then sum.2 else rnd.1 in
      let rng1 := if last then f_rng f else rnd.2 in
      let call1 :=
        if last
        then Call_blind_sum nOut (f_blindptrs f)
               (f_nBlindsOut f + f_nBlindsIn f) (f_nBlindsIn f) blind
        else Call_GetRandBytes nOut blind in
      if last && (sum.1 =? 0)%Z
      then Aborted (mkFrame H (f_vout f) (f_blindptrs f) (f_nBlindsIn f)
                      (f_nBlindsOut f) (f_nToBlind f) (f_nBlinded f) rng1
                      (f_calls f ++ [call1]))
      else
      let blindptrs := f_blindptrs f ++ [blind] in
      let nBlinded := S (f_nBlinded f) in
      let nBlindsOut := S (f_nBlindsOut f) in
      let value := nValue out in
      let amount := GetAmount value in
      let com := secp256k1_pedersen_commit blind (to_uint64 amount) in
      let value1 := mkCTxOutValue (write_at0 (vchCommitment value) com.2)
                      (vchRangeproof value) (vchNonceCommitment value) in
      let calls2 :=
        f_calls f ++ [call1; Call_commit nOut blind (to_uint64 amount) com.2] in
      if (com.1 =? 0)%Z
      then Aborted (mkFrame H (set_nValue nOut value1 (f_vout f)) blindptrs
                      (f_nBlindsIn f) nBlindsOut (f_nToBlind f) nBlinded rng1
                      calls2)
      else
      let mk := MakeNewKey rng1 in
      let ephemeral_key := mk.1 in
      let ephemeral_pubkey := GetPubKey ephemeral_key in
      let nonce_commitment :=
        memcpy (vec_resize 33 (vchNonceCommitment value1))
          (pubkey_data ephemeral_pubkey) 33 in
      let nonce_key := ECDH ephemeral_key pk in
      let nonce := Hash256 (pubkey_bytes nonce_key) in
      let nRangeProofLen := 5134%Z in
      let buf := vec_resize (Z.to_nat nRangeProofLen) (vchRangeproof value1) in
      let exp := Z.min (Z.max (to_int (GetArg "-ct_exponent" 0)) (-1)) 18 in
      let bits := Z.min (Z.max (to_int (GetArg "-ct_bits" 32)) 1) 51 in
      let sr := secp256k1_rangeproof_sign nRangeProofLen 0
                  (vchCommitment value1) blind nonce exp bits
                  (to_uint64 amount) in
      let buf := write_at0 buf (sg_proof sr) in
      let calls3 := calls2 ++ [Call_sign nOut exp bits (sg_len sr)] in
      (* a negative length makes resize throw *)
      if (sg_len sr <? 0)%Z
      then Aborted (mkFrame H
                      (set_nValue nOut
                         (mkCTxOutValue (vchCommitment value1) buf nonce_commitment)
                         (f_vout f))
                      blindptrs (f_nBlindsIn f) nBlindsOut (f_nToBlind f)
                      nBlinded mk.2 calls3)
      else
      let value3 :=
        mkCTxOutValue (vchCommitment value1)
          (vec_resize (Z.to_nat (sg_len sr)) buf) nonce_commitment in
      let f' := mkFrame H (set_nValue nOut value3 (f_vout f)) blindptrs
                  (f_nBlindsIn f) nBlindsOut (f_nToBlind f) nBlinded mk.2
                  calls3 in
      if (sg_res sr =? 0)%Z then Aborted f' else Returned f'
    end
  end.

(** The reference parameter [tx] enters as the value [tx]; its outputs
    after the call are [f_vout] of the frame reached. *)
Definition BlindOutputs {H : Host} (input_blinding_factors : list bytes)
    (output_blinding_factors : list bytes) (output_pubkeys : list CPubKey)
    (tx : CMutableTransaction) (rng : Rng) : outcome frame :=
  let f0 := mkFrame H (vout tx) [] 0 0 0 0 rng [] in
  if negb (length (vout tx) =? length output_blinding_factors) then Aborted f0 else
  if negb (length (vout tx) =? length output_pubkeys) then Aborted f0 else
  if negb (length (vin tx) =? length input_blinding_factors) then Aborted f0 else
  bind (for_loop (length (vin tx)) (inputs_body input_blinding_factors) f0)
    (fun f1 =>
  bind (for_loop (length (vout tx))
          (outputs_body output_blinding_factors output_pubkeys) f1)
    (fun f2 =>
  if negb (f_nBlindsIn f2 =? 0) && (f_nBlindsOut f2 + f_nToBlind f2 =? 0)
  then Aborted f2
  else for_loop (length (vout tx)) (blind_body output_pubkeys) f2)).

(** ** What the call checks, and what the caller owes

    Stated over the arguments of [BlindOutputs]. *)

(** A blinding factor is absent or has 32 bytes. *)
Definition well_sized (b : bytes) : Prop := length b = 0 \/ length b = 32.

(** The factors that are present. *)
Definition present (l : list bytes) : list bytes :=
  filter (fun b => length b <> 0) l.

(** Output [i] is to be blinded by the call: it holds an explicit amount and
    its recipient key is valid (the test of line 102). *)
Definition to_blind {H : Host} (output_pubkeys : list CPubKey)
    (tx : CMutableTransaction) (i : nat) : bool :=
  match vout tx !! i, output_pubkeys !! i with
  | Some out, Some pk => IsAmount (nValue out) && IsValid pk
  | _, _ => false
  end.

(** The outputs to be blinded among the first [k], in ascending order. *)
Definition to_blind_below {H : Host} (output_pubkeys : list CPubKey)
    (tx : CMutableTransaction) (k : nat) : list nat :=
  filter (fun i => to_blind output_pubkeys tx i = true) (seq 0 k).

(** What lines 82 and 84 assert of output [i]. *)
Definition output_checked {H : Host} (output_blinding_factors : list bytes)
    (tx : CMutableTransaction) (i : nat) : Prop :=
  exists b out,
    output_blinding_factors !! i = Some b /\ vout tx !! i = Some out /\
    (length b <> 0 <-> IsAmount (nValue out) = false) /\ well_sized b.

(** Everything asserted in lines 63-96. *)
Definition asserted {H : Host} (input_blinding_factors : list bytes)
    (output_blinding_factors : list bytes) (output_pubkeys : list CPubKey)
    (tx : CMutableTransaction) : Prop :=
  length (vout tx) = length output_blinding_factors /\
  length (vout tx) = length output_pubkeys /\
  length (vin tx) = length input_blinding_factors /\
  Forall well_sized input_blinding_factors /\
  (forall i, i < length (vout tx) -> output_checked output_blinding_factors tx i) /\
  (length (present input_blinding_factors) <> 0 ->
   length (present output_blinding_factors)
   + length (to_blind_below output_pubkeys tx (length (vout tx))) <> 0).

(** The frame with which the blinding loop is entered. *)
Definition entry_frame {H : Host} (input_blinding_factors : list bytes)
    (output_blinding_factors : list bytes) (output_pubkeys : list CPubKey)
    (tx : CMutableTransaction) (rng : Rng) : frame :=
  mkFrame H (vout tx)
    (present input_blinding_factors ++ present output_blinding_factors)
    (length (present input_blinding_factors))
    (length (present output_blinding_factors))
    (length (to_blind_below output_pubkeys tx (length (vout tx)))) 0 rng [].

(** The caller's contract of section 4.3, violated: some length does not
    match; or some factor that is present has not 32 bytes; or some output
    is blinded without a factor supplied for it, or explicit with one; or a
    factor is present on the input side while no output is blinded or to be
    blinded. *)
Definition fatal_violation {H : Host} (input_blinding_factors : list bytes)
    (output_blinding_factors : list bytes) (output_pubkeys : list CPubKey)
    (tx : CMutableTransaction) : Prop :=
  (length output_blinding_factors <> length (vout tx) \/
   length output_pubkeys <> length (vout tx) \/
   length input_blinding_factors <> length (vin tx))
  \/ (exists b, (b ∈ input_blinding_factors \/ b ∈ output_blinding_factors) /\
                length b <> 0 /\ length b <> 32)
  \/ (exists i b out,
        output_blinding_factors !! i = Some b /\ vout tx !! i = Some out /\
        ~ (length b <> 0 <-> IsAmount (nValue out) = false))
  \/ ((exists b, b ∈ input_blinding_factors /\ length b <> 0) /\
      forall i out, vout tx !! i = Some out ->
        IsAmount (nValue out) = true /\
        forall pk, output_pubkeys !! i = Some pk -> IsValid pk = false).



(** ** Scalars

    A blinding factor is a 32-byte big-endian integer, read modulo the order
    of the secp256k1 group. *)

Definition Z_of_byte (b : byte) : Z := Z.of_N (Strings.Byte.to_N b).
Definition byte_of_Z (z : Z) : byte :=
  default x00 (Strings.Byte.of_N (Z.to_N (z mod 256))).

Fixpoint le_bytes (n : nat) (z : Z) : bytes :=
  match n with
  | O => []
  | S k => byte_of_Z z :: le_bytes k (z / 256)
  end.

Fixpoint le_value (l : bytes) : Z :=
  match l with
  | [] => 0
  | b :: r => Z_of_byte b + 256 * le_value r
  end%Z.

Definition be_bytes (n : nat) (z : Z) : bytes := rev (le_bytes n z).
Definition be_value (l : bytes) : Z := le_value (rev l).

Definition bytes_eqb (a b : bytes) : bool :=
  bool_decide (map Z_of_byte a = map Z_of_byte b).

(** The order of the secp256k1 group. *)
Definition group_order : Z :=
  0xFFFFFFFFFFFFFFFFFFFFFFFFFFFFFFFEBAAEDCE6AF48A03BBFD25E8CD0364141%Z.

Definition scalar (b : bytes) : Z := (be_value b mod group_order)%Z.

Definition sum_scalars (l : list bytes) : Z :=
  foldr (fun b acc => (scalar b + acc)%Z) 0%Z l.

(** ** What the library documents of its functions

    Each class states one contract of the external interface; a theorem
    names the ones it relies on. *)

(** [plen] holds the capacity of the proof buffer on entry and the length
    of the proof on return, which fits the buffer. *)
Class SignLength (H : Host) : Prop :=
  sign_length : forall plen min_value commit blind nonce exp min_bits value,
    (sg_len (secp256k1_rangeproof_sign plen min_value commit blind nonce exp
               min_bits value) <= plen)%Z.

(** The factor that blind-sum writes balances the others: added to the
    negative ones it equals the sum of the positive ones. *)
Class BlindSum (H : Host) : Prop :=
  blind_sum_balances : forall ptrs npositive,
    npositive <= length ptrs ->
    (secp256k1_pedersen_blind_sum ptrs (length ptrs) npositive).1 <> 0%Z ->
    ((scalar (secp256k1_pedersen_blind_sum ptrs (length ptrs) npositive).2
      + sum_scalars (drop npositive ptrs)) mod group_order
     = sum_scalars (take npositive ptrs) mod group_order)%Z.

(** Key agreement: both sides of a valid pair derive the same point; a
    key made by [MakeNewKey(true)] has a valid, compressed public key, which
    its first 33 bytes determine. *)
Class KeyAgreement (H : Host) : Prop := {
  ecdh_agree : forall a b,
    IsValid (GetPubKey a) = true -> IsValid (GetPubKey b) = true ->
    ECDH a (GetPubKey b) = ECDH b (GetPubKey a);
  new_key_valid : forall g, IsValid (GetPubKey (MakeNewKey g).1) = true;
  new_key_data : forall g,
    33 <= length (pubkey_data (GetPubKey (MakeNewKey g).1));
  new_key_compressed : forall g,
    CPubKey_of_vch (take 33 (pubkey_data (GetPubKey (MakeNewKey g).1)))
    = GetPubKey (MakeNewKey g).1
}.

(** A commitment has 33 bytes, and a value holding one is not an explicit
    amount. *)
Class Commitment (H : Host) : Prop := {
  commit_length : forall blind amount,
    (secp256k1_pedersen_commit blind amount).1 <> 0%Z ->
    length (secp256k1_pedersen_commit blind amount).2 = 33;
  commit_blinded : forall value blind amount,
    (secp256k1_pedersen_commit blind amount).1 <> 0%Z ->
    vchCommitment value = (secp256k1_pedersen_commit blind amount).2 ->
    IsAmount value = false
}.

(** Factors have 32 bytes, drawn or summed. *)
Class FactorLength (H : Host) : Prop := {
  rand_length : forall g n, length (GetRandBytes g n).1 = n;
  blind_sum_length : forall ptrs n npositive,
    (secp256k1_pedersen_blind_sum ptrs n npositive).1 <> 0%Z ->
    length (secp256k1_pedersen_blind_sum ptrs n npositive).2 = 32
}.

(** A proof that signing produced over a commitment to [value] under
    [blind] has the length reported, and rewinds under the same nonce to
    that factor and that value. *)
Class Rewindable (H : Host) : Prop := {
  sign_proof_length :
    forall plen min_value commit blind nonce exp min_bits value,
      sg_res (secp256k1_rangeproof_sign plen min_value commit blind nonce exp
                min_bits value) <> 0%Z ->
      Z.of_nat (length (sg_proof (secp256k1_rangeproof_sign plen min_value
                                    commit blind nonce exp min_bits value)))
      = sg_len (secp256k1_rangeproof_sign plen min_value commit blind nonce
                  exp min_bits value);
  rewind_sign :
    forall plen min_value blind nonce exp min_bits value,
      (secp256k1_pedersen_commit blind value).1 <> 0%Z ->
      length blind = 32 ->
      sg_res (secp256k1_rangeproof_sign plen min_value
                (secp256k1_pedersen_commit blind value).2 blind nonce exp
                min_bits value) <> 0%Z ->
      rw_res (secp256k1_rangeproof_rewind nonce
                (secp256k1_pedersen_commit blind value).2
                (sg_proof (secp256k1_rangeproof_sign plen min_value
                   (secp256k1_pedersen_commit blind value).2 blind nonce exp
                   min_bits value))) <> 0%Z /\
      rw_blind (secp256k1_rangeproof_rewind nonce
                (secp256k1_pedersen_commit blind value).2
                (sg_proof (secp256k1_rangeproof_sign plen min_value
                   (secp256k1_pedersen_commit blind value).2 blind nonce exp
                   min_bits value))) = blind /\
      rw_amount (secp256k1_rangeproof_rewind nonce
                (secp256k1_pedersen_commit blind value).2
                (sg_proof (secp256k1_rangeproof_sign plen min_value
                   (secp256k1_pedersen_commit blind value).2 blind nonce exp
                   min_bits value))) = value
}.

(** The money range lies between 0 and [MAX_MONEY], a [CAmount]. *)
Class Money (H : Host) : Prop := {
  money_range : forall a, MoneyRange a = true -> (0 <= a <= MAX_MONEY)%Z;
  max_money_int64 : (0 <= MAX_MONEY < 2 ^ 63)%Z
}.

(** The value that lines 114-132 leave in an output whose value was [value],
    for the recipient key [pk] and the factor [blind], the ephemeral key
    being made with the random source in state [g]. *)
Definition blinded_value {H : Host} (pk : CPubKey) (blind : bytes) (g : Rng)
    (value : CTxOutValue) : CTxOutValue :=
  let amount := to_uint64 (GetAmount value) in
  let commitment :=
    write_at0 (vchCommitment value) (secp256k1_pedersen_commit blind amount).2 in
  let eph := (MakeNewKey g).1 in
  let nonce := Hash256 (pubkey_bytes (ECDH eph pk)) in
  let exp := Z.min (Z.max (to_int (GetArg "-ct_exponent" 0)) (-1)) 18 in
  let bits := Z.min (Z.max (to_int (GetArg "-ct_bits" 32)) 1) 51 in
  let sr := secp256k1_rangeproof_sign 5134 0 commitment blind nonce exp bits
              amount in
  mkCTxOutValue commitment
    (vec_resize (Z.to_nat (sg_len sr))
       (write_at0 (vec_resize (Z.to_nat 5134) (vchRangeproof value))
          (sg_proof sr)))
    (memcpy (vec_resize 33 (vchNonceCommitment value))
       (pubkey_data (GetPubKey eph)) 33).

(** The assertions of lines 116 and 134 held, and the length reported is
    one that a vector can take. *)
Definition blinding_asserted {H : Host} (pk : CPubKey) (blind : bytes)
    (g : Rng) (value : CTxOutValue) : Prop :=
  let amount := to_uint64 (GetAmount value) in
  let commitment :=
    write_at0 (vchCommitment value) (secp256k1_pedersen_commit blind amount).2 in
  let eph := (MakeNewKey g).1 in
  let nonce := Hash256 (pubkey_bytes (ECDH eph pk)) in
  let exp := Z.min (Z.max (to_int (GetArg "-ct_exponent" 0)) (-1)) 18 in
  let bits := Z.min (Z.max (to_int (GetArg "-ct_bits" 32)) 1) 51 in
  let sr := secp256k1_rangeproof_sign 5134 0 commitment blind nonce exp bits
              amount in
  (secp256k1_pedersen_commit blind amount).1 <> 0%Z /\
  sg_res sr <> 0%Z /\ (0 <= sg_len sr)%Z.

(** The call of line 131 for an output whose value was [value]: what
    [secp256k1_rangeproof_sign] returns for the commitment just written,
    the factor [blind] and the nonce derived from the ephemeral key. *)
Definition proof_signed {H : Host} (pk : CPubKey) (blind : bytes) (g : Rng)
    (value : CTxOutValue) : sign_result :=
  let amount := to_uint64 (GetAmount value) in
  let commitment :=
    write_at0 (vchCommitment value) (secp256k1_pedersen_commit blind amount).2 in
  let eph := (MakeNewKey g).1 in
  let nonce := Hash256 (pubkey_bytes (ECDH eph pk)) in
  let exp := Z.min (Z.max (to_int (GetArg "-ct_exponent" 0)) (-1)) 18 in
  let bits := Z.min (Z.max (to_int (GetArg "-ct_bits" 32)) 1) 51 in
  secp256k1_rangeproof_sign 5134 0 commitment blind nonce exp bits amount.

(** Output [i] of the transaction is, in the frame [f], blinded with the
    factor [blind]: it holds the value that lines 114-132 build from its
    explicit value under [blind] for its recipient key, the assertions on
    the way held, and the calls to [secp256k1_pedersen_commit] and
    [secp256k1_rangeproof_sign] for it are on record with that factor and
    the length that signing reported. *)
Definition blinded_with {H : Host} (output_pubkeys : list CPubKey)
    (tx : CMutableTransaction) (f : frame) (i : nat) (blind : bytes) : Prop :=
  exists out pk g,
    vout tx !! i = Some out /\ output_pubkeys !! i = Some pk /\
    blinding_asserted pk blind g (nValue out) /\
    f_vout f !! i
    = Some (mkCTxOut (blinded_value pk blind g (nValue out))
              (scriptPubKey out)) /\
    Call_commit i blind (to_uint64 (GetAmount (nValue out)))
      (secp256k1_pedersen_commit blind
         (to_uint64 (GetAmount (nValue out)))).2 ∈ f_calls f /\
    Call_sign i
      (Z.min (Z.max (to_int (GetArg "-ct_exponent" 0)) (-1)) 18)
      (Z.min (Z.max (to_int (GetArg "-ct_bits" 32)) 1) 51)
      (sg_len (proof_signed pk blind g (nValue out))) ∈ f_calls f.

(** The calls on record that produced a blinding factor. *)
Definition is_factor_call (c : lib_call) : bool :=
  match c with
  | Call_blind_sum _ _ _ _ _ | Call_GetRandBytes _ _ => true
  | _ => false
  end.

Definition factor_calls (l : list lib_call) : list lib_call :=
  filter (fun c => is_factor_call c = true) l.

(** What is on record and in store for a signing call: the proof vector of
    the output it was made for has the length the call reported, at most
    5134. *)
Definition proof_stored {H : Host} (f : frame) (c : lib_call) : Prop :=
  match c with
  | Call_sign nOut _ _ len =>
      exists out,
        f_vout f !! nOut = Some out /\
        Z.of_nat (length (vchRangeproof (nValue out))) = len /\
        (len <= 5134)%Z
  | _ => True
  end.

(** What line 52 gets back from the library for [key] and [txout]. *)
Definition rewound {H : Host} (key : CKey) (txout : CTxOut) : rewind_result :=
  secp256k1_rangeproof_rewind
    (Hash256 (pubkey_bytes
       (ECDH key (CPubKey_of_vch (vchNonceCommitment (nValue txout))))))
    (vchCommitment (nValue txout)) (vchRangeproof (nValue txout)).

(** ** The context lifecycle (lines 10-32)

    The library's context functions and capability flags are external too.
    A context pointer is [Some] handle, or [None] for [NULL]; what the
    library does when it creates or destroys a context acts on a state of
    its own. *)

Class ContextLib := {
  secp256k1_context_t : Type;
  LibState : Type;
  SECP256K1_CONTEXT_SIGN : Z;
  SECP256K1_CONTEXT_VERIFY : Z;
  SECP256K1_CONTEXT_COMMIT : Z;
  SECP256K1_CONTEXT_RANGEPROOF : Z;
  secp256k1_context_create :
    Z -> LibState -> option secp256k1_context_t * LibState;
  secp256k1_context_destroy : secp256k1_context_t -> LibState -> LibState
}.

(** The calls into the library, in the order they are made. *)
Inductive context_call {L : ContextLib} : Type :=
| Call_create (flags : Z) (ctx : option secp256k1_context_t)
| Call_destroy (ctx : secp256k1_context_t).

(** The static [secp256k1_context], the library, and the record of calls. *)
Record ecc_state {L : ContextLib} := mkEcc {
  secp256k1_context : option secp256k1_context_t;
  ecc_lib : LibState;
  ecc_calls : list context_call
}.

Definition ECC_Blinding_Start {L : ContextLib} (s : ecc_state)
  : outcome ecc_state :=
  match secp256k1_context s with
  | Some _ => Aborted s
  | None =>
    let flags :=
      Z.lor (Z.lor (Z.lor SECP256K1_CONTEXT_SIGN SECP256K1_CONTEXT_VERIFY)
               SECP256K1_CONTEXT_COMMIT) SECP256K1_CONTEXT_RANGEPROOF in
    let r := secp256k1_context_create flags (ecc_lib s) in
    let ctx := r.1 in
    let calls := ecc_calls s ++ [Call_create flags ctx] in
    match ctx with
    | None => Aborted (mkEcc L (secp256k1_context s) r.2 calls)
    | Some _ => Returned (mkEcc L ctx r.2 calls)
    end
  end.

Definition ECC_Blinding_Stop {L : ContextLib} (s : ecc_state) : ecc_state :=
  let ctx := secp256k1_context s in
  match ctx with
  | Some c =>
    mkEcc L None (secp256k1_context_destroy c (ecc_lib s))
      (ecc_calls s ++ [Call_destroy c])
  | None => mkEcc L None (ecc_lib s) (ecc_calls s)
  end.

Definition ECC_Blinding_Context {L : ContextLib} (s : ecc_state)
  : option secp256k1_context_t :=
  secp256k1_context s.

(** A caller's sequence of starts and stops, run until one of them stops
    at an assertion. *)
Inductive ecc_op : Type := OpStart | OpStop.

Definition ecc_step {L : ContextLib} (op : ecc_op) (s : ecc_state)
  : outcome ecc_state :=
  match op with
  | OpStart => ECC_Blinding_Start s
  | OpStop => Returned (ECC_Blinding_Stop s)
  end.

Fixpoint ecc_run {L : ContextLib} (ops : list ecc_op) (s : ecc_state)
  : outcome ecc_state :=
  match ops with
  | [] => Returned s
  | op :: rest => bind (ecc_step op s) (ecc_run rest)
  end.

(** A record of calls in which a context is created only while none is
    held and the one destroyed is the one held; the second argument is the
    context held at the end. *)
Inductive well_paired {L : ContextLib}
  : list context_call -> option secp256k1_context_t -> Prop :=
| wp_nil : well_paired [] None
| wp_create_failed t flags :
    well_paired t None -> well_paired (t ++ [Call_create flags None]) None
| wp_create t flags c :
    well_paired t None ->
    well_paired (t ++ [Call_create flags (Some c)]) (Some c)
| wp_destroy t c :
    well_paired t (Some c) -> well_paired (t ++ [Call_destroy c]) None.

(** ** Readings of the record of calls of [BlindOutputs] *)

(** The outputs for which a commitment was computed, and those for which a
    range proof was signed, in the order of the calls. *)
Definition committed_outputs (l : list lib_call) : list nat :=
  omap (fun c => match c with Call_commit i _ _ _ => Some i | _ => None end) l.

Definition signed_outputs (l : list lib_call) : list nat :=
  omap (fun c => match c with Call_sign i _ _ _ => Some i | _ => None end) l.

(** ** A reference instance of the interface

    A small executable [Host] on which the model can be run: public keys are
    33 bytes with header 2, the shared secret multiplies the two key bytes,
    a commitment is a header byte and 32 bytes, a range proof carries the
    nonce, the factor and the amount, blinding factors are big-endian
    scalars modulo the group order.  It serves the examples only; no
    theorem about the program depends on it. *)

Module Reference.

Definition ref_pubkey (k : byte) : bytes := Byte.x02 :: k :: replicate 31 x00.

Definition ref_IsValid (pk : bytes) : bool :=
  match pk with
  | h :: _ => bytes_eqb [h] [Byte.x02] && (length pk =? 33)
  | [] => false
  end.

Definition ref_ECDH (a : byte) (pk : bytes) : bytes :=
  ref_pubkey (byte_of_Z (Z_of_byte a * Z_of_byte (nth 1 pk x00))).

Definition ref_IsAmount (v : CTxOutValue) : bool :=
  match vchCommitment v with
  | h :: _ => bytes_eqb [h] [x00]
  | [] => false
  end.

Definition ref_GetAmount (v : CTxOutValue) : Z :=
  to_int64 (be_value (drop 25 (vchCommitment v))).

Definition ref_MAX_MONEY : Z := 2100000000000000%Z.

Definition ref_commit (blind : bytes) (amount : Z) : Z * bytes :=
  if length blind =? 32
  then (1%Z, Byte.x02 :: be_bytes 32 ((be_value blind + amount) mod 2 ^ 256))
  else (0%Z, []).

Definition ref_blind_sum (ptrs : list bytes) (n npositive : nat) : Z * bytes :=
  (1%Z,
   be_bytes 32 ((sum_scalars (take npositive (take n ptrs))
                 - sum_scalars (drop npositive (take n ptrs))) mod group_order)).

Definition ref_sign (plen min_value : Z) (commit blind nonce : bytes)
    (exp min_bits value : Z) : sign_result :=
  let proof := nonce ++ blind ++ be_bytes 8 value in
  if (length blind =? 32) && (0 <=? value)%Z && (value <? 2 ^ 64)%Z
     && (Z.of_nat (length proof) <=? plen)%Z
  then mkSign 1 proof (Z.of_nat (length proof))
  else mkSign 0 [] plen.

Definition ref_rewind (nonce commit proof : bytes) : rewind_result :=
  if bytes_eqb (take (length nonce) proof) nonce
     && (length nonce + 40 =? length proof)
  then mkRewind 1 (take 32 (drop (length nonce) proof))
         (be_value (drop (length nonce + 32) proof))
  else mkRewind 0 [] 0.

(** [config] holds the options set on the command line. *)
Definition ref_host (config : string -> option Z) : Host := {|
  CKey := byte;
  CPubKey := bytes;
  Rng := nat;
  CPubKey_of_vch := fun v => v;
  IsValid := ref_IsValid;
  pubkey_bytes := fun pk => pk;
  pubkey_data := fun pk => vec_resize 65 pk;
  GetPubKey := ref_pubkey;
  ECDH := ref_ECDH;
  MakeNewKey := fun g => (byte_of_Z (Z.of_nat g + 7), S g);
  GetRandBytes := fun g n => (replicate n (byte_of_Z (Z.of_nat g + 1)), S g);
  Hash256 := vec_resize 32;
  IsAmount := ref_IsAmount;
  GetAmount := ref_GetAmount;
  MAX_MONEY := ref_MAX_MONEY;
  MoneyRange := fun a => (0 <=? a)%Z && (a <=? ref_MAX_MONEY)%Z;
  GetArg := fun name def => default def (config name);
  secp256k1_pedersen_commit := ref_commit;
  secp256k1_pedersen_blind_sum := ref_blind_sum;
  secp256k1_rangeproof_sign := ref_sign;
  secp256k1_rangeproof_rewind := ref_rewind
|}.

Definition no_config : string -> option Z := fun _ => None.

(** An explicit output of the given amount: 25 zero bytes and the amount in
    8 big-endian bytes. *)
Definition explicit_out (amount : Z) : CTxOut :=
  mkCTxOut (mkCTxOutValue (replicate 25 x00 ++ be_bytes 8 amount) [] []) [].

(** A blinded output with the given nonce commitment and range proof. *)
Definition blinded_out (nonce_commitment proof : bytes) : CTxOut :=
  mkCTxOut (mkCTxOutValue (Byte.x02 :: replicate 32 x00) proof nonce_commitment) [].

(** The configuration-free instance and a few values to run the model on. *)
Definition host0 : Host := ref_host no_config.

Definition key5 : byte := Byte.x05.
Definition eph3 : bytes := ref_pubkey Byte.x03.
Definition nonce53 : bytes := vec_resize 32 (ref_ECDH key5 eph3).

(** A blinded output for [key5] whose proof rewinds to one unit more than
    [MAX_MONEY]. *)
Definition tampered_out : CTxOut :=
  blinded_out eph3
    (nonce53 ++ replicate 32 Byte.x09 ++ be_bytes 8 (ref_MAX_MONEY + 1)).

(** A blinded output whose nonce commitment is empty. *)
Definition keyless_out : CTxOut := blinded_out [] [].

(** A transaction with one input, of a known factor, and three explicit
    outputs: two addressed to valid keys, the third to none. *)
Definition tx3 : CMutableTransaction :=
  mkCMutableTransaction [mkCTxIn [] 0 [] 0]
    [explicit_out 1000; explicit_out 2000; explicit_out 5].
Definition ibf1 : list bytes := [replicate 32 Byte.x11].
Definition obf3 : list bytes := [[]; []; []].
Definition key21 : byte := Byte.x21.
Definition pks3 : list bytes := [ref_pubkey key21; ref_pubkey Byte.x22; []].

(** The frame in which the call on [tx3] ends. *)
Abbreviation run3 :=
  (state_of (@BlindOutputs host0 ibf1 obf3 pks3 tx3 0)).

(** Hosts with one of the two options set. *)
Definition config_exponent (v : Z) : string -> option Z :=
  fun name => if String.eqb name "-ct_exponent" then Some v else None.
Definition config_bits (v : Z) : string -> option Z :=
  fun name => if String.eqb name "-ct_bits" then Some v else None.

(** A blinded output for [key5] whose proof rewinds to 1234 under the
    factor of 32 bytes 9, and one whose proof does not rewind. *)
Definition rewindable_out : CTxOut :=
  blinded_out eph3 (nonce53 ++ replicate 32 Byte.x09 ++ be_bytes 8 1234).
Definition unrewindable_out : CTxOut := blinded_out eph3 [].

(** A transaction with one explicit output addressed to a valid key and no
    input, and one with a single explicit output addressed to no key. *)
Definition tx1 : CMutableTransaction :=
  mkCMutableTransaction [] [explicit_out 1000].
Definition tx1_plain : CMutableTransaction :=
  mkCMutableTransaction [] [explicit_out 5].

(** A library whose contexts are numbered in the order of their creation. *)
Definition ref_context_lib : ContextLib := {|
  secp256k1_context_t := nat;
  LibState := nat;
  SECP256K1_CONTEXT_SIGN := 2;
  SECP256K1_CONTEXT_VERIFY := 1;
  SECP256K1_CONTEXT_COMMIT := 128;
  SECP256K1_CONTEXT_RANGEPROOF := 256;
  secp256k1_context_create := fun _ n => (Some n, S n);
  secp256k1_context_destroy := fun _ n => n
|}.

Definition ecc_initial : @ecc_state ref_context_lib :=
  mkEcc ref_context_lib None 0 [].

End Reference.

(** * Buffers *)

Lemma vec_resize_0 (v : bytes) : vec_resize 0 v = [].
Proof. unfold vec_resize. apply resize_0. Qed.

Lemma length_vec_resize (n : nat) (v : bytes) : length (vec_resize n v) = n.
Proof. unfold vec_resize. apply length_resize. Qed.

Lemma length_write_at0 (v src : bytes) : length (write_at0 v src) = length v.
Proof.
  unfold write_at0. rewrite length_take, length_app, length_drop. lia.
Qed.

(** Writing as many bytes as the buffer holds replaces its content. *)
Lemma write_at0_full (v src : bytes) :
  length src = length v -> write_at0 v src = src.
Proof.
  intros Hlen. unfold write_at0.
  rewrite drop_ge by lia. rewrite app_nil_r.
  rewrite <- Hlen. apply firstn_all.
Qed.

(** * Output unblinding *)

Section UnblindFacts.
Context {H : Host}.

(** C6: an output whose value is an explicit amount gives the return value
    -1 (neither 1 nor 0), the amount copied out and an empty blinding
    factor, whatever the key and whatever the two parameters held. *)
Theorem UnblindOutput_explicit (key : CKey) (txout : CTxOut) (A : Z)
    (amount_out : Z) (blinding_factor_out : bytes) :
  IsAmount (nValue txout) = true ->
  GetAmount (nValue txout) = A ->
  UnblindOutput key txout amount_out blinding_factor_out = mkUnblind (-1) A [].
Proof.
  intros Hexp HA. unfold UnblindOutput.
  rewrite Hexp, HA, vec_resize_0. reflexivity.
Qed.

(** C10: on a blinded output whose nonce commitment is not a valid public
    key the call returns 0 and both reference parameters keep the values
    the caller passed; so the blinding factor has length 0 or 32 afterwards
    exactly when it had before. *)
Theorem UnblindOutput_invalid_key_frame (key : CKey) (txout : CTxOut)
    (amount_out : Z) (blinding_factor_out : bytes) :
  IsAmount (nValue txout) = false ->
  IsValid (CPubKey_of_vch (vchNonceCommitment (nValue txout))) = false ->
  let r := UnblindOutput key txout amount_out blinding_factor_out in
  r = mkUnblind 0 amount_out blinding_factor_out /\
  ((length (ub_blinding_factor_out r) = 0 \/ length (ub_blinding_factor_out r) = 32)
   <-> (length blinding_factor_out = 0 \/ length blinding_factor_out = 32)).
Proof.
  intros Hbl Hinv r. subst r. unfold UnblindOutput.
  rewrite Hbl, Hinv. simpl. split; [reflexivity | tauto].
Qed.

(** The branch taken when the rewind succeeds but the amount fails one of
    the two range checks. *)
Lemma UnblindOutput_out_of_range (key : CKey) (txout : CTxOut)
    (amount_out : Z) (blinding_factor_out : bytes) :
  IsAmount (nValue txout) = false ->
  IsValid (CPubKey_of_vch (vchNonceCommitment (nValue txout))) = true ->
  let nonce := Hash256 (pubkey_bytes
                 (ECDH key (CPubKey_of_vch (vchNonceCommitment (nValue txout))))) in
  let r := secp256k1_rangeproof_rewind nonce (vchCommitment (nValue txout))
             (vchRangeproof (nValue txout)) in
  rw_res r <> 0%Z ->
  (to_uint64 MAX_MONEY < rw_amount r)%Z \/ MoneyRange (to_int64 (rw_amount r)) = false ->
  UnblindOutput key txout amount_out blinding_factor_out = mkUnblind 1 0 [].
Proof.
  intros Hbl Hval nonce r Hres Hrange. unfold UnblindOutput.
  rewrite Hbl, Hval. simpl. fold nonce. fold r.
  apply Z.eqb_neq in Hres. rewrite Hres. simpl.
  replace ((to_uint64 MAX_MONEY <? rw_amount r)%Z
           || negb (MoneyRange (to_int64 (rw_amount r)))) with true.
  - rewrite vec_resize_0. reflexivity.
  - symmetry. destruct Hrange as [Hgt | Hmr].
    + apply Z.ltb_lt in Hgt. rewrite Hgt. reflexivity.
    + rewrite Hmr. apply orb_true_r.
Qed.


(** C1: when the rewind succeeds (non-zero return) and the amount it
    recovered exceeds [MAX_MONEY] or fails [MoneyRange], the amount
    parameter is set to 0 and the blinding factor is emptied, but the value
    returned is 1, the success value, not 0. *)
Theorem UnblindOutput_out_of_range_returns_1 (key : CKey)
    (txout : CTxOut) (amount_out : Z) (blinding_factor_out : bytes) :
  IsAmount (nValue txout) = false ->
  IsValid (CPubKey_of_vch (vchNonceCommitment (nValue txout))) = true ->
  rw_res (secp256k1_rangeproof_rewind
            (Hash256 (pubkey_bytes
               (ECDH key (CPubKey_of_vch (vchNonceCommitment (nValue txout))))))
            (vchCommitment (nValue txout)) (vchRangeproof (nValue txout))) <> 0%Z ->
  (to_uint64 MAX_MONEY <
     rw_amount (secp256k1_rangeproof_rewind
            (Hash256 (pubkey_bytes
               (ECDH key (CPubKey_of_vch (vchNonceCommitment (nValue txout))))))
            (vchCommitment (nValue txout)) (vchRangeproof (nValue txout))))%Z
  \/ MoneyRange (to_int64
       (rw_amount (secp256k1_rangeproof_rewind
            (Hash256 (pubkey_bytes
               (ECDH key (CPubKey_of_vch (vchNonceCommitment (nValue txout))))))
            (vchCommitment (nValue txout)) (vchRangeproof (nValue txout))))) = false ->
  let r := UnblindOutput key txout amount_out blinding_factor_out in
  ub_ret r = 1%Z /\ ub_ret r <> 0%Z /\
  ub_amount_out r = 0%Z /\ ub_blinding_factor_out r = [].
Proof.
  intros Hbl Hval Hres Hrange r. subst r.
  rewrite (UnblindOutput_out_of_range key txout amount_out blinding_factor_out
             Hbl Hval Hres Hrange).
  simpl. repeat split; lia.
Qed.

(** C2, as the code has it: on a blinded output whose nonce commitment is
    not a valid public key the call returns 0 with any key and writes
    neither parameter; they are 0 and empty afterwards when the caller
    passed them so. *)
Theorem UnblindOutput_invalid_key_failure (key : CKey)
    (txout : CTxOut) (amount_out : Z) (blinding_factor_out : bytes) :
  IsAmount (nValue txout) = false ->
  IsValid (CPubKey_of_vch (vchNonceCommitment (nValue txout))) = false ->
  let r := UnblindOutput key txout amount_out blinding_factor_out in
  ub_ret r = 0%Z /\
  ub_amount_out r = amount_out /\
  ub_blinding_factor_out r = blinding_factor_out /\
  (amount_out = 0%Z -> blinding_factor_out = [] -> r = mkUnblind 0 0 []).
Proof.
  intros Hbl Hinv r. subst r. unfold UnblindOutput.
  rewrite Hbl, Hinv. simpl. repeat split. intros -> ->. reflexivity.
Qed.

End UnblindFacts.

(** * Loops *)

Lemma returned_state {St : Type} (o : outcome St) :
  returned o = true -> o = Returned (state_of o).
Proof. by destruct o. Qed.

(** An invariant [I] of the iterations and a property [Q] of every state in
    which an iteration can stop. *)
Lemma for_loop_invariant {St : Type} (I : nat -> St -> Prop) (Q : St -> Prop)
    (body : nat -> St -> outcome St) (n : nat) (s0 : St) :
  I 0 s0 ->
  (forall k s, k < n -> I k s ->
     match body k s with Returned s' => I (S k) s' | Aborted s' => Q s' end) ->
  match for_loop n body s0 with Returned s' => I n s' | Aborted s' => Q s' end.
Proof.
  intros H0 Hstep. induction n as [|n IH]; simpl.
  - exact H0.
  - assert (IH' := IH (fun k s Hk => Hstep k s (Nat.lt_lt_succ_r _ _ Hk))).
    destruct (for_loop n body s0) as [s|s]; simpl.
    + apply Hstep; [lia | exact IH'].
    + exact IH'.
Qed.

Lemma lookup_set_nValue_ne (i j : nat) (v : CTxOutValue) (l : list CTxOut) :
  i <> j -> set_nValue i v l !! j = l !! j.
Proof. intros Hne. unfold set_nValue. by apply list_lookup_alter_ne. Qed.

Lemma lookup_set_nValue_eq (i : nat) (v : CTxOutValue) (l : list CTxOut) (o : CTxOut) :
  l !! i = Some o -> set_nValue i v l !! i = Some (mkCTxOut v (scriptPubKey o)).
Proof.
  intros Hl. unfold set_nValue. rewrite list_lookup_alter_eq, Hl. reflexivity.
Qed.

Lemma length_set_nValue (i : nat) (v : CTxOutValue) (l : list CTxOut) :
  length (set_nValue i v l) = length l.
Proof. unfold set_nValue. apply length_alter. Qed.

(** * The checks made before any output is touched *)

Section Preconditions.
Context {H : Host}.
Variables (input_blinding_factors output_blinding_factors : list bytes).
Variable output_pubkeys : list CPubKey.
Variable tx : CMutableTransaction.

Lemma to_blind_below_S (k : nat) :
  to_blind_below output_pubkeys tx (S k) =
  to_blind_below output_pubkeys tx k ++ (if to_blind output_pubkeys tx k then [k] else []).
Proof.
  unfold to_blind_below. rewrite seq_S, filter_app. simpl. f_equal.
  destruct (to_blind output_pubkeys tx k) eqn:E.
  - rewrite filter_cons_True by exact E. reflexivity.
  - rewrite filter_cons_False by congruence. reflexivity.
Qed.

Lemma present_snoc (l : list bytes) (b : bytes) :
  present (l ++ [b]) = present l ++ (if length b =? 0 then [] else [b]).
Proof.
  unfold present. rewrite filter_app. f_equal.
  destruct (length b =? 0) eqn:E.
  - apply Nat.eqb_eq in E. rewrite filter_cons_False by lia. reflexivity.
  - apply Nat.eqb_neq in E. rewrite filter_cons_True by exact E. reflexivity.
Qed.

(** The loop over the inputs (lines 71-77). *)
Lemma inputs_loop_spec (n : nat) (f0 : frame) :
  n <= length input_blinding_factors ->
  match for_loop n (inputs_body input_blinding_factors) f0 with
  | Returned f1 =>
      Forall well_sized (take n input_blinding_factors) /\
      f1 = mkFrame H (f_vout f0)
             (f_blindptrs f0 ++ present (take n input_blinding_factors))
             (f_nBlindsIn f0 + length (present (take n input_blinding_factors)))
             (f_nBlindsOut f0) (f_nToBlind f0) (f_nBlinded f0) (f_rng f0)
             (f_calls f0)
  | Aborted f1 =>
      ~ Forall well_sized input_blinding_factors /\
      f_vout f1 = f_vout f0 /\ f_calls f1 = f_calls f0
  end.
Proof.
  induction n as [|n IH]; intros Hn; cbn [for_loop bind].
  - split; [constructor|]. destruct f0; simpl.
    rewrite app_nil_r, Nat.add_0_r. reflexivity.
  - specialize (IH ltac:(lia)).
    destruct (for_loop n (inputs_body input_blinding_factors) f0) as [f1|f1];
      cbn [bind]; [|exact IH].
    destruct IH as [Hall ->].
    destruct (lookup_lt_is_Some_2 input_blinding_factors n ltac:(lia)) as [b Hb].
    unfold inputs_body. rewrite Hb. simpl.
    rewrite (take_S_r _ _ _ Hb), present_snoc.
    destruct (length b =? 0) eqn:E0; simpl.
    + apply Nat.eqb_eq in E0. split.
      * apply Forall_app. split; [exact Hall|]. apply Forall_singleton. by left.
      * rewrite app_nil_r. reflexivity.
    + destruct (length b =? 32) eqn:E32; simpl.
      * apply Nat.eqb_eq in E32. split.
        -- apply Forall_app. split; [exact Hall|]. apply Forall_singleton. by right.
        -- rewrite length_app. simpl. f_equal; [by rewrite app_assoc | lia].
      * apply Nat.eqb_neq in E0. apply Nat.eqb_neq in E32.
        split; [|done]. intros Hf.
        rewrite Forall_lookup in Hf. destruct (Hf n b Hb); lia.
Qed.

(** The first loop over the outputs (lines 81-92). *)
Lemma outputs_loop_spec (n : nat) (f1 : frame) :
  f_vout f1 = vout tx ->
  n <= length output_blinding_factors ->
  n <= length (vout tx) ->
  n <= length output_pubkeys ->
  match for_loop n (outputs_body output_blinding_factors output_pubkeys) f1 with
  | Returned f2 =>
      (forall i, i < n -> output_checked output_blinding_factors tx i) /\
      f2 = mkFrame H (f_vout f1)
             (f_blindptrs f1 ++ present (take n output_blinding_factors))
             (f_nBlindsIn f1)
             (f_nBlindsOut f1 + length (present (take n output_blinding_factors)))
             (f_nToBlind f1 + length (to_blind_below output_pubkeys tx n))
             (f_nBlinded f1) (f_rng f1) (f_calls f1)
  | Aborted f2 =>
      (exists i, i < n /\ ~ output_checked output_blinding_factors tx i) /\
      f_vout f2 = f_vout f1 /\ f_calls f2 = f_calls f1
  end.
Proof.
  intros Hv. induction n as [|n IH]; intros Hb Ho Hp; cbn [for_loop bind].
  - split; [intros i Hi; lia|]. destruct f1; simpl.
    rewrite app_nil_r, !Nat.add_0_r. reflexivity.
  - specialize (IH ltac:(lia) ltac:(lia) ltac:(lia)).
    destruct (for_loop n _ f1) as [f2|f2]; cbn [bind].
    2:{ destruct IH as [(i & Hi & Hbad) Hrest]. split; [|exact Hrest].
        exists i. split; [lia | exact Hbad]. }
    destruct IH as [Hall ->].
    destruct (lookup_lt_is_Some_2 output_blinding_factors n ltac:(lia)) as [b Eb].
    destruct (lookup_lt_is_Some_2 (vout tx) n ltac:(lia)) as [out Eo].
    destruct (lookup_lt_is_Some_2 output_pubkeys n ltac:(lia)) as [pk Ep].
    unfold outputs_body. cbn [f_vout f_blindptrs f_nBlindsIn f_nBlindsOut
      f_nToBlind f_nBlinded f_rng f_calls].
    rewrite Eb, Hv, Eo.
    rewrite (take_S_r _ _ _ Eb), present_snoc, to_blind_below_S.
    assert (Etb : to_blind output_pubkeys tx n = IsAmount (nValue out) && IsValid pk).
    { unfold to_blind. rewrite Eo, Ep. reflexivity. }
    rewrite Etb.
    destruct (length b =? 0) eqn:E0; destruct (IsAmount (nValue out)) eqn:Ea;
      cbn [negb Bool.eqb andb].
    + (* no factor, explicit amount *)
      apply Nat.eqb_eq in E0. rewrite Ep.
      assert (Hck : forall i, i < S n -> output_checked output_blinding_factors tx i).
      { intros i Hi. destruct (decide (i = n)) as [->|Hne]; [|apply Hall; lia].
        exists b, out. split; [done|]. split; [done|].
        split; [split; intros; [lia | congruence] | by left]. }
      destruct (IsValid pk); (split; [exact Hck|]);
        rewrite ?app_nil_r, ?length_app; simpl; f_equal; lia.
    + (* no factor, yet not an amount *)
      split; [|done]. exists n. split; [lia|].
      intros (b' & out' & Eb' & Eo' & Hiff & _).
      rewrite Eb in Eb'. rewrite Eo in Eo'. simplify_eq.
      apply Nat.eqb_eq in E0. apply Hiff in Ea. lia.
    + (* a factor for an explicit amount *)
      split; [|done]. exists n. split; [lia|].
      intros (b' & out' & Eb' & Eo' & Hiff & _).
      rewrite Eb in Eb'. rewrite Eo in Eo'. simplify_eq.
      apply Nat.eqb_neq in E0. apply Hiff in E0. congruence.
    + (* a factor for a blinded output *)
      apply Nat.eqb_neq in E0.
      destruct (length b =? 32) eqn:E32; cbn [negb].
      * apply Nat.eqb_eq in E32. split.
        -- intros i Hi. destruct (decide (i = n)) as [->|Hne]; [|apply Hall; lia].
           exists b, out. split; [done|]. split; [done|].
           split; [split; intros; done | by right].
        -- rewrite ?app_nil_r, ?length_app. simpl.
           f_equal; [by rewrite app_assoc | lia..].
      * apply Nat.eqb_neq in E32. split; [|done]. exists n. split; [lia|].
        intros (b' & out' & Eb' & Eo' & _ & Hws).
        rewrite Eb in Eb'. simplify_eq. destruct Hws; lia.
Qed.

(** Lines 63-96 as a whole: either everything asserted input_blinding_factors output_blinding_factors
     output_pubkeys tx holds and the call
    goes on to the blinding loop from [entry_frame], or it stops there with
    the outputs as they were and no library call made. *)
Lemma BlindOutputs_checks (rng : Rng) :
  (asserted input_blinding_factors output_blinding_factors
     output_pubkeys tx /\
   BlindOutputs input_blinding_factors output_blinding_factors output_pubkeys
     tx rng
   = for_loop (length (vout tx)) (blind_body output_pubkeys) (entry_frame input_blinding_factors output_blinding_factors
        output_pubkeys tx rng))
  \/
  (~ asserted input_blinding_factors output_blinding_factors
     output_pubkeys tx /\
   exists f,
     BlindOutputs input_blinding_factors output_blinding_factors
       output_pubkeys tx rng = Aborted f /\
     f_vout f = vout tx /\ f_calls f = []).
Proof.
  unfold BlindOutputs.
  destruct (length (vout tx) =? length output_blinding_factors) eqn:E1; cbn [negb].
  2:{ right. apply Nat.eqb_neq in E1. split; [unfold asserted; tauto|eauto]. }
  destruct (length (vout tx) =? length output_pubkeys) eqn:E2; cbn [negb].
  2:{ right. apply Nat.eqb_neq in E2. split; [unfold asserted; tauto|eauto]. }
  destruct (length (vin tx) =? length input_blinding_factors) eqn:E3; cbn [negb].
  2:{ right. apply Nat.eqb_neq in E3. split; [unfold asserted; tauto|eauto]. }
  apply Nat.eqb_eq in E1. apply Nat.eqb_eq in E2. apply Nat.eqb_eq in E3.
  set (f0 := mkFrame H (vout tx) [] 0 0 0 0 rng []).
  pose proof (inputs_loop_spec (length (vin tx)) f0 ltac:(lia)) as H1.
  rewrite E3, firstn_all in H1. rewrite E3.
  destruct (for_loop _ (inputs_body _) f0) as [f1|f1]; cbn [bind].
  2:{ right. destruct H1 as (Hbad & Hv & Hc).
      split; [unfold asserted; tauto|]. exists f1. by rewrite Hv, Hc. }
  destruct H1 as [Hin ->]. cbn [f0 f_vout f_blindptrs f_nBlindsIn f_nBlindsOut
    f_nToBlind f_nBlinded f_rng f_calls app Nat.add].
  match goal with |- context [for_loop _ (outputs_body _ _) ?f] =>
    pose proof (outputs_loop_spec (length (vout tx)) f eq_refl
                  ltac:(lia) ltac:(lia) ltac:(lia)) as H2 end.
  rewrite !take_ge in H2 by lia.
  destruct (for_loop _ (outputs_body _ _) _) as [f2|f2]; cbn [bind].
  2:{ right. destruct H2 as ((i & Hi & Hbad) & Hv & Hc).
      split; [|exists f2; by rewrite Hv, Hc].
      intros (_ & _ & _ & _ & Hall & _). apply Hbad, Hall, Hi. }
  destruct H2 as [Hout ->]. cbn [f_vout f_blindptrs f_nBlindsIn f_nBlindsOut
    f_nToBlind f_nBlinded f_rng f_calls app Nat.add].
  destruct (length (present input_blinding_factors) =? 0) eqn:E4; cbn [negb andb].
  - left. apply Nat.eqb_eq in E4. split; [|reflexivity].
    unfold asserted. repeat split; try done; intros; lia.
  - apply Nat.eqb_neq in E4.
    destruct (_ + _ =? 0) eqn:E5.
    + right. apply Nat.eqb_eq in E5. split; [|eauto].
      intros (_ & _ & _ & _ & _ & Hne). apply Hne; [exact E4 | exact E5].
    + left. apply Nat.eqb_neq in E5. split; [|reflexivity].
      unfold asserted. repeat split; try done.
Qed.

Lemma filter_none {A : Type} (P : A -> Prop) `{!forall x, Decision (P x)}
    (l : list A) :
  (forall x, x ∈ l -> ~ P x) -> filter P l = [].
Proof.
  intros Hno. destruct (filter P l) as [|x r] eqn:E; [reflexivity|].
  assert (Hx : x ∈ filter P l) by (rewrite E; left).
  apply list_elem_of_filter in Hx. destruct Hx as [HP Hin].
  destruct (Hno x Hin HP).
Qed.

Lemma asserted_excludes_violation : asserted input_blinding_factors output_blinding_factors
     output_pubkeys tx -> ~ fatal_violation input_blinding_factors output_blinding_factors
    output_pubkeys tx.
Proof.
  intros (L1 & L2 & L3 & Hin & Hout & Hsum) [Hv | [Hv | [Hv | Hv]]].
  - lia.
  - destruct Hv as (b & [Hb | Hb] & Hn0 & Hn32).
    + rewrite Forall_forall in Hin. destruct (Hin b Hb); lia.
    + apply list_elem_of_lookup in Hb. destruct Hb as [i Hi].
      assert (Hlt : i < length (vout tx)).
      { rewrite L1. eapply lookup_lt_Some, Hi. }
      destruct (Hout i Hlt) as (b' & out & Eb & _ & _ & Hws).
      rewrite Hi in Eb. simplify_eq. destruct Hws; lia.
  - destruct Hv as (i & b & out & Eb & Eo & Hbad).
    assert (Hlt : i < length (vout tx)) by (eapply lookup_lt_Some, Eo).
    destruct (Hout i Hlt) as (b' & out' & Eb' & Eo' & Hiff & _).
    rewrite Eb in Eb'. rewrite Eo in Eo'. simplify_eq. exact (Hbad Hiff).
  - destruct Hv as ((b & Hb & Hn0) & Hnone).
    apply Hsum.
    + intros Hlen. apply length_zero_iff_nil in Hlen.
      assert (Hp : b ∈ present input_blinding_factors).
      { unfold present. apply list_elem_of_filter. by split. }
      rewrite Hlen in Hp. by apply not_elem_of_nil in Hp.
    + unfold present, to_blind_below.
      rewrite !filter_none; [reflexivity| |].
      * intros i _ Hi. unfold to_blind in Hi.
        destruct (vout tx !! i) as [out|] eqn:Eo; [|done].
        destruct (output_pubkeys !! i) as [pk|] eqn:Ep; [|done].
        destruct (Hnone i out Eo) as [_ Hpk].
        rewrite (Hpk pk Ep), andb_false_r in Hi. done.
      * intros b' Hb' Hlen. apply list_elem_of_lookup in Hb'.
        destruct Hb' as [i Hi].
        assert (Hlt : i < length (vout tx)).
        { rewrite L1. eapply lookup_lt_Some, Hi. }
        destruct (Hout i Hlt) as (b'' & out & Eb & Eo & Hiff & _).
        rewrite Hi in Eb. simplify_eq.
        destruct (Hnone i out Eo) as [Ha _].
        apply Hiff in Hlen. congruence.
Qed.

(** C5: a call that violates the caller's contract stops at an assertion
    with every output as it was handed in, and before any call into the
    library or the random source. *)
Theorem BlindOutputs_fatal_precondition (rng : Rng) :
  fatal_violation input_blinding_factors output_blinding_factors
    output_pubkeys tx ->
  exists f,
    BlindOutputs input_blinding_factors output_blinding_factors output_pubkeys
      tx rng = Aborted f /\ f_vout f = vout tx /\ f_calls f = [].
Proof.
  intros Hv.
  destruct (BlindOutputs_checks rng) as [[Has _] | [_ Hab]].
  - destruct (asserted_excludes_violation Has Hv).
  - exact Hab.
Qed.

End Preconditions.


(** * One iteration of the blinding loop *)

Section Iteration.
Context {H : Host}.
Variable output_pubkeys : list CPubKey.

(** An iteration leaves the outputs alone or rewrites the value of output
    [nOut], and the latter only when that output holds an explicit amount
    and has a valid recipient key. *)
Lemma blind_body_vout (nOut : nat) (f : frame) :
  f_vout (state_of (blind_body output_pubkeys nOut f)) = f_vout f \/
  exists out pk v,
    f_vout f !! nOut = Some out /\ IsAmount (nValue out) = true /\
    output_pubkeys !! nOut = Some pk /\ IsValid pk = true /\
    f_vout (state_of (blind_body output_pubkeys nOut f))
    = set_nValue nOut v (f_vout f).
Proof.
  unfold blind_body.
  destruct (f_vout f !! nOut) as [out|] eqn:Eo; [|by left].
  destruct (IsAmount (nValue out)) eqn:Ea; [|by left].
  destruct (output_pubkeys !! nOut) as [pk|] eqn:Ep; [|by left].
  destruct (IsValid pk) eqn:Ev; [|by left].
  cbn [negb].
  repeat case_match; cbn [state_of f_vout]; first [by left | right; eauto 10].
Qed.


(** An iteration that returns either changed nothing, the output being
    blinded already or without a valid recipient key, or went through every
    step of lines 104-134 with each assertion holding. *)
Lemma blind_body_Returned (nOut : nat) (f f' : frame) :
  blind_body output_pubkeys nOut f = Returned f' ->
  (f' = f /\
   exists out, f_vout f !! nOut = Some out /\
     (IsAmount (nValue out) = false \/
      exists pk, output_pubkeys !! nOut = Some pk /\ IsValid pk = false))
  \/
  exists out pk,
    f_vout f !! nOut = Some out /\ IsAmount (nValue out) = true /\
    output_pubkeys !! nOut = Some pk /\ IsValid pk = true /\
    let last := f_nBlinded f + 1 =? f_nToBlind f in
    let sum := secp256k1_pedersen_blind_sum (f_blindptrs f)
                 (f_nBlindsOut f + f_nBlindsIn f) (f_nBlindsIn f) in
    let rnd := GetRandBytes (f_rng f) 32 in
    let blind := if last then sum.2 else rnd.1 in
    let rng1 := if last then f_rng f else rnd.2 in
    let call1 :=
      if last
      then Call_blind_sum nOut (f_blindptrs f)
             (f_nBlindsOut f + f_nBlindsIn f) (f_nBlindsIn f) blind
      else Call_GetRandBytes nOut blind in
    let amount := to_uint64 (GetAmount (nValue out)) in
    let com := secp256k1_pedersen_commit blind amount in
    let commitment := write_at0 (vchCommitment (nValue out)) com.2 in
    let eph := (MakeNewKey rng1).1 in
    let nonce := Hash256 (pubkey_bytes (ECDH eph pk)) in
    let exp := Z.min (Z.max (to_int (GetArg "-ct_exponent" 0)) (-1)) 18 in
    let bits := Z.min (Z.max (to_int (GetArg "-ct_bits" 32)) 1) 51 in
    let sr := secp256k1_rangeproof_sign 5134 0 commitment blind nonce exp
                bits amount in
    (last = true -> sum.1 <> 0%Z) /\ com.1 <> 0%Z /\
    sg_res sr <> 0%Z /\ (0 <= sg_len sr)%Z /\
    f' = mkFrame H
           (set_nValue nOut
              (mkCTxOutValue commitment
                 (vec_resize (Z.to_nat (sg_len sr))
                    (write_at0
                       (vec_resize (Z.to_nat 5134) (vchRangeproof (nValue out)))
                       (sg_proof sr)))
                 (memcpy (vec_resize 33 (vchNonceCommitment (nValue out)))
                    (pubkey_data (GetPubKey eph)) 33))
              (f_vout f))
           (f_blindptrs f ++ [blind]) (f_nBlindsIn f) (S (f_nBlindsOut f))
           (f_nToBlind f) (S (f_nBlinded f)) (MakeNewKey rng1).2
           (f_calls f ++ [call1; Call_commit nOut blind amount com.2;
                          Call_sign nOut exp bits (sg_len sr)]).
Proof.
  unfold blind_body.
  destruct (f_vout f !! nOut) as [out|] eqn:Eo; [|discriminate].
  destruct (IsAmount (nValue out)) eqn:Ea; cbn [negb].
  2:{ intros [= <-]. left. split; [reflexivity|]. exists out. by split; [|left]. }
  destruct (output_pubkeys !! nOut) as [pk|] eqn:Ep; [|discriminate].
  destruct (IsValid pk) eqn:Ev; cbn [negb].
  2:{ intros [= <-]. left. split; [reflexivity|]. exists out. split; [done|].
      right. by exists pk. }
  intros Hret. right. exists out, pk.
  split; [done|]. split; [done|]. split; [done|]. split; [done|]. cbv zeta.
  cbv zeta in Hret. cbn [vchCommitment vchRangeproof vchNonceCommitment] in Hret.
  destruct (f_nBlinded f + 1 =? f_nToBlind f) eqn:El; cbn [andb] in Hret.
  - destruct (_ =? 0)%Z eqn:Es in Hret; [discriminate|].
    destruct (_ =? 0)%Z eqn:Ec in Hret; [discriminate|].
    destruct (_ <? 0)%Z eqn:En in Hret; [discriminate|].
    destruct (_ =? 0)%Z eqn:Er in Hret; [discriminate|].
    injection Hret as <-.
    apply Z.eqb_neq in Es, Ec, Er. apply Z.ltb_ge in En.
    rewrite <- app_assoc. done.
  - destruct (_ =? 0)%Z eqn:Ec in Hret; [discriminate|].
    destruct (_ <? 0)%Z eqn:En in Hret; [discriminate|].
    destruct (_ =? 0)%Z eqn:Er in Hret; [discriminate|].
    injection Hret as <-.
    apply Z.eqb_neq in Ec, Er. apply Z.ltb_ge in En.
    rewrite <- app_assoc. done.
Qed.

End Iteration.


(** * The blinding loop *)

Section BlindLoop.
Context {H : Host}.
Variables (input_blinding_factors output_blinding_factors : list bytes).
Variable output_pubkeys : list CPubKey.
Variable tx : CMutableTransaction.

(** Outputs not yet reached, and outputs that are not to be blinded, are
    as in the transaction handed in; this holds in the state of an abort
    too. *)
Lemma blind_loop_vout (n : nat) (f0 : frame) :
  f_vout f0 = vout tx ->
  match for_loop n (blind_body output_pubkeys) f0 with
  | Returned f =>
      forall i, n <= i \/ to_blind output_pubkeys tx i = false ->
                f_vout f !! i = vout tx !! i
  | Aborted f =>
      forall i, to_blind output_pubkeys tx i = false ->
                f_vout f !! i = vout tx !! i
  end.
Proof.
  intros Hv.
  apply (for_loop_invariant
           (fun k f => forall i, k <= i \/ to_blind output_pubkeys tx i = false ->
                                 f_vout f !! i = vout tx !! i)
           (fun f => forall i, to_blind output_pubkeys tx i = false ->
                               f_vout f !! i = vout tx !! i)).
  - intros i _. by rewrite Hv.
  - intros k f _ Hinv.
    destruct (blind_body_vout output_pubkeys k f)
      as [Hsame | (out & pk & v & Eo & Ea & Ep & Ev & Hset)].
    + destruct (blind_body output_pubkeys k f) as [f'|f']; cbn [state_of] in Hsame;
        intros i Hi; rewrite Hsame; apply Hinv; [destruct Hi; [left; lia | by right] | by right].
    + assert (Hk : to_blind output_pubkeys tx k = true).
      { unfold to_blind. rewrite <- (Hinv k) by (left; lia).
        rewrite Eo, Ep, Ea, Ev. reflexivity. }
      assert (Hi' : forall i, to_blind output_pubkeys tx i = false -> i <> k).
      { intros i Hi ->. congruence. }
      destruct (blind_body output_pubkeys k f) as [f'|f']; cbn [state_of] in Hset;
        intros i Hi; rewrite Hset.
      * assert (k <> i) by (destruct Hi as [Hi|Hi]; [lia | apply Hi' in Hi; lia]).
        rewrite lookup_set_nValue_ne by done.
        apply Hinv. destruct Hi; [left; lia | by right].
      * assert (k <> i) by (apply Hi' in Hi; lia).
        rewrite lookup_set_nValue_ne by done. apply Hinv. by right.
Qed.

(** C7: an output that is blinded before the call, and an explicit output
    whose recipient key is invalid or absent, is afterwards what it was
    before, whether the call returns or stops at an assertion. *)
Theorem BlindOutputs_ineligible_unchanged (rng : Rng) (i : nat) (out : CTxOut) :
  vout tx !! i = Some out ->
  IsAmount (nValue out) = false \/
  (forall pk, output_pubkeys !! i = Some pk -> IsValid pk = false) ->
  f_vout (state_of (BlindOutputs input_blinding_factors output_blinding_factors
                      output_pubkeys tx rng)) !! i = Some out.
Proof.
  intros Eo Hin.
  assert (Hnb : to_blind output_pubkeys tx i = false).
  { unfold to_blind. rewrite Eo.
    destruct (output_pubkeys !! i) as [pk|] eqn:Ep; [|done].
    destruct Hin as [-> | Hpk]; [done|].
    rewrite (Hpk pk eq_refl). apply andb_false_r. }
  destruct (BlindOutputs_checks input_blinding_factors output_blinding_factors
              output_pubkeys tx rng) as [[_ ->] | [_ (f & -> & Hv & _)]].
  - pose proof (blind_loop_vout (length (vout tx))
                  (entry_frame input_blinding_factors output_blinding_factors
                     output_pubkeys tx rng) eq_refl) as Hl.
    destruct (for_loop _ _ _) as [f|f]; cbn [state_of]; rewrite <- Eo;
      apply Hl; [by right | done].
  - cbn [state_of]. by rewrite Hv.
Qed.





(** An invariant of the iterations that return; each is entered with its
    own output as the transaction had it. *)
Lemma blind_loop_invariant (I : nat -> frame -> Prop) (n : nat) (f0 f : frame) :
  f_vout f0 = vout tx ->
  I 0 f0 ->
  (forall k s s', k < n -> f_vout s !! k = vout tx !! k -> I k s ->
     blind_body output_pubkeys k s = Returned s' -> I (S k) s') ->
  for_loop n (blind_body output_pubkeys) f0 = Returned f ->
  I n f.
Proof.
  intros Hv H0 Hstep Hret.
  pose proof (for_loop_invariant
    (fun k s => I k s /\ forall i, k <= i -> f_vout s !! i = vout tx !! i)
    (fun _ => True) (blind_body output_pubkeys) n f0) as Hl.
  rewrite Hret in Hl. apply Hl.
  - split; [exact H0|]. intros i _. by rewrite Hv.
  - intros k s Hk [HI Hfr].
    destruct (blind_body output_pubkeys k s) as [s'|s'] eqn:Eb; [|exact Logic.I].
    split; [by eapply (Hstep k s s' Hk (Hfr k (Nat.le_refl k)))|].
    intros i Hi.
    destruct (blind_body_vout output_pubkeys k s)
      as [Hsame | (out & pk & v & _ & _ & _ & _ & Hset)];
      rewrite Eb in *; cbn [state_of] in *.
    + rewrite Hsame. apply Hfr. lia.
    + rewrite Hset, lookup_set_nValue_ne by lia. apply Hfr. lia.
Qed.

(** An output the loop has passed is to be blinded exactly when the
    iteration for it went through the blinding steps. *)
Lemma to_blind_of_lookup (k : nat) (s : frame) (out : CTxOut) (pk : CPubKey) :
  f_vout s !! k = vout tx !! k ->
  f_vout s !! k = Some out -> output_pubkeys !! k = Some pk ->
  to_blind output_pubkeys tx k = IsAmount (nValue out) && IsValid pk.
Proof.
  intros Hfr Eo Ep. unfold to_blind. rewrite <- Hfr, Eo, Ep. reflexivity.
Qed.

Lemma to_blind_false (k : nat) (s : frame) :
  f_vout s !! k = vout tx !! k ->
  (exists out, f_vout s !! k = Some out /\
     (IsAmount (nValue out) = false \/
      exists pk, output_pubkeys !! k = Some pk /\ IsValid pk = false)) ->
  to_blind output_pubkeys tx k = false.
Proof.
  intros Hfr (out & Eo & Hno). unfold to_blind. rewrite <- Hfr, Eo.
  destruct Hno as [Ea | (pk & Ep & Ev)].
  - rewrite Ea. by destruct (output_pubkeys !! k).
  - rewrite Ep, Ev. apply andb_false_r.
Qed.

(** The factors collected in the loop are, one for one and in order, the
    factors that the outputs to be blinded are blinded with. *)
Lemma blind_loop_outputs (n : nat) (f : frame) (rng : Rng) :
  for_loop n (blind_body output_pubkeys)
    (entry_frame input_blinding_factors output_blinding_factors
       output_pubkeys tx rng) = Returned f ->
  exists news,
    f_blindptrs f
    = present input_blinding_factors ++ present output_blinding_factors
      ++ news /\
    Forall2 (fun i b => i < n /\ blinded_with output_pubkeys tx f i b)
      (to_blind_below output_pubkeys tx n) news.
Proof.
  apply (blind_loop_invariant (fun k s =>
    exists news,
      f_blindptrs s
      = present input_blinding_factors ++ present output_blinding_factors
        ++ news /\
      Forall2 (fun i b => i < k /\ blinded_with output_pubkeys tx s i b)
        (to_blind_below output_pubkeys tx k) news)); [reflexivity | | ].
  - exists []. cbn. by rewrite app_nil_r.
  - intros k s s' Hk Hfr (news & Hptrs & Hall) Hb.
    rewrite to_blind_below_S.
    apply blind_body_Returned in Hb.
    destruct Hb as [[-> Hno] | (out & pk & Eo & Ea & Ep & Ev & Hb)].
    + rewrite (to_blind_false k s Hfr Hno), app_nil_r.
      exists news. split; [done|].
      eapply Forall2_impl; [exact Hall|]. intros i b [Hi Hw]. split; [lia|done].
    + rewrite (to_blind_of_lookup k s out pk Hfr Eo Ep), Ea, Ev. cbn [andb].
      cbv zeta in Hb.
      set (blind := if f_nBlinded s + 1 =? f_nToBlind s
                    then (secp256k1_pedersen_blind_sum _ _ _).2 else _) in Hb.
      destruct Hb as (_ & Hcom & Hres & Hlen & ->).
      cbn [f_blindptrs]. exists (news ++ [blind]).
      split; [by rewrite Hptrs, <- !app_assoc|].
      apply Forall2_app.
      * eapply Forall2_impl; [exact Hall|].
        intros i b [Hi (o & p & g & E1 & E2 & Has & Hv & Hc & Hsg)].
        split; [lia|]. exists o, p, g. cbn [f_vout f_calls].
        split; [done|]. split; [done|]. split; [done|].
        split; [by rewrite lookup_set_nValue_ne by lia|].
        split; apply elem_of_app; by left.
      * apply Forall2_cons. split; [|by apply Forall2_nil].
        split; [lia|]. exists out, pk. eexists. cbn [f_vout f_calls].
        split; [by rewrite <- Hfr|]. split; [done|]. split.
        { unfold blinding_asserted. cbv zeta. done. }
        split.
        { rewrite (lookup_set_nValue_eq _ _ _ _ Eo).
          unfold blinded_value. cbv zeta. reflexivity. }
        split; apply elem_of_app; right.
        -- apply elem_of_cons. right. apply elem_of_cons. by left.
        -- apply elem_of_cons. right. apply elem_of_cons. right.
           apply elem_of_cons. left. unfold proof_signed. cbv zeta.
           reflexivity.
Qed.

Lemma blind_loop_proofs `{!SignLength H} (n : nat) (f : frame) (rng : Rng) :
  for_loop n (blind_body output_pubkeys)
    (entry_frame input_blinding_factors output_blinding_factors
       output_pubkeys tx rng) = Returned f ->
  (forall i, i < n -> to_blind output_pubkeys tx i = true ->
     exists exp bits len, Call_sign i exp bits len ∈ f_calls f) /\
  Forall (fun c => proof_stored f c /\
                   match c with Call_sign nOut _ _ _ => nOut < n | _ => True end)
    (f_calls f).
Proof.
  apply (blind_loop_invariant (fun k s =>
    (forall i, i < k -> to_blind output_pubkeys tx i = true ->
       exists exp bits len, Call_sign i exp bits len ∈ f_calls s) /\
    Forall (fun c => proof_stored s c /\
                     match c with Call_sign nOut _ _ _ => nOut < k | _ => True end)
      (f_calls s))); [reflexivity | | ].
  - split; [intros i Hi; lia | constructor].
  - intros k s s' Hk Hfr [Hsig Hst] Hb.
    apply blind_body_Returned in Hb.
    destruct Hb as [[-> Hno] | (out & pk & Eo & Ea & Ep & Ev & Hb)].
    + pose proof (to_blind_false k s Hfr Hno) as Hf. split.
      * intros i Hi Hi'. destruct (decide (i = k)) as [->|]; [congruence|].
        apply Hsig; [lia | done].
      * eapply Forall_impl; [exact Hst|]. intros [] [? ?]; split; try done; lia.
    + cbv zeta in Hb. destruct Hb as (_ & _ & _ & Hlen & ->).
      cbn [f_calls f_vout]. split.
      * intros i Hi Hi'. destruct (decide (i = k)) as [->|].
        -- do 3 eexists. apply elem_of_app. right.
           apply elem_of_cons; right. apply elem_of_cons; right.
           apply elem_of_cons; left. reflexivity.
        -- destruct (Hsig i ltac:(lia) Hi') as (e & b & l & Hin).
           exists e, b, l. apply elem_of_app. by left.
      * apply Forall_app. split.
        -- eapply Forall_impl; [exact Hst|].
           intros [| | |j e b l]; cbn [proof_stored f_vout]; try done.
           intros [(o & Eo' & Hl) Hj]. split; [|lia].
           exists o. by rewrite lookup_set_nValue_ne by lia.
        -- repeat (apply Forall_cons; split); try apply Forall_nil;
             try (by destruct (_ =? _)).
           split; [|lia]. cbn [proof_stored f_vout].
           eexists. split; [by apply lookup_set_nValue_eq|].
           cbn [nValue vchRangeproof]. rewrite length_vec_resize.
           split; [lia|]. apply sign_length.
Qed.

Lemma to_blind_below_elem (n i : nat) :
  i < n -> to_blind output_pubkeys tx i = true ->
  i ∈ to_blind_below output_pubkeys tx n.
Proof.
  intros Hi Ht. unfold to_blind_below. apply list_elem_of_filter.
  split; [done|]. apply elem_of_seq. lia.
Qed.

(** C9: when the call returns, every output it blinded holds the value of
    lines 114-132 for some factor, and the range proof stored in it is
    what the call to [secp256k1_rangeproof_sign] of line 131 wrote into
    the buffer of 5134 bytes, trimmed: its length is exactly the length
    that this call reported, and that is at most 5134.  Every signing call
    on record is such a one. *)
Theorem BlindOutputs_proof_length `{!SignLength H} (rng : Rng) (f : frame) :
  BlindOutputs input_blinding_factors output_blinding_factors output_pubkeys
    tx rng = Returned f ->
  (forall i out,
     vout tx !! i = Some out -> to_blind output_pubkeys tx i = true ->
     exists pk blind g,
       output_pubkeys !! i = Some pk /\
       f_vout f !! i
       = Some (mkCTxOut (blinded_value pk blind g (nValue out))
                 (scriptPubKey out)) /\
       sg_res (proof_signed pk blind g (nValue out)) <> 0%Z /\
       vchRangeproof (blinded_value pk blind g (nValue out))
       = vec_resize (Z.to_nat (sg_len (proof_signed pk blind g (nValue out))))
           (write_at0
              (vec_resize (Z.to_nat 5134) (vchRangeproof (nValue out)))
              (sg_proof (proof_signed pk blind g (nValue out)))) /\
       Z.of_nat (length (vchRangeproof
                           (blinded_value pk blind g (nValue out))))
       = sg_len (proof_signed pk blind g (nValue out)) /\
       (sg_len (proof_signed pk blind g (nValue out)) <= 5134)%Z /\
       Call_sign i
         (Z.min (Z.max (to_int (GetArg "-ct_exponent" 0)) (-1)) 18)
         (Z.min (Z.max (to_int (GetArg "-ct_bits" 32)) 1) 51)
         (sg_len (proof_signed pk blind g (nValue out))) ∈ f_calls f) /\
  Forall (proof_stored f) (f_calls f).
Proof.
  intros Hret.
  destruct (BlindOutputs_checks input_blinding_factors output_blinding_factors
              output_pubkeys tx rng) as [[_ Hrun] | [_ (f' & Hab & _)]];
    [|congruence].
  rewrite Hrun in Hret. split.
  - intros i out Eo Ht.
    assert (Hlt : i < length (vout tx)) by (eapply lookup_lt_Some, Eo).
    destruct (blind_loop_outputs _ f rng Hret) as (news & _ & Hall).
    pose proof (to_blind_below_elem _ i Hlt Ht) as Hin.
    apply list_elem_of_lookup_1 in Hin. destruct Hin as [j Hj].
    destruct (Forall2_lookup_l _ _ _ _ _ Hall Hj)
      as (b & _ & _ & o & pk & g & E1 & E2 & Has & Hv & _ & Hsg).
    rewrite Eo in E1. simplify_eq.
    destruct Has as (_ & Hres & Hlen). cbv zeta in Hres, Hlen.
    exists pk, b, g. split; [done|]. split; [done|].
    split; [exact Hres|]. split; [reflexivity|].
    split; [|split; [apply sign_length | exact Hsg]].
    unfold blinded_value. cbv zeta. cbn [vchRangeproof].
    rewrite length_vec_resize. unfold proof_signed. cbv zeta. lia.
  - apply blind_loop_proofs in Hret. destruct Hret as [_ Hst].
    eapply Forall_impl; [exact Hst|]. by intros c [? _].
Qed.

Lemma to_blind_below_mono (k n : nat) :
  k <= n ->
  length (to_blind_below output_pubkeys tx k)
  <= length (to_blind_below output_pubkeys tx n).
Proof.
  induction 1 as [|n Hle IH]; [lia|].
  rewrite to_blind_below_S, length_app. lia.
Qed.

Lemma factor_calls_snoc (l : list lib_call) (c c2 c3 : lib_call) :
  is_factor_call c = true -> is_factor_call c2 = false ->
  is_factor_call c3 = false ->
  factor_calls (l ++ [c; c2; c3]) = factor_calls l ++ [c].
Proof.
  intros H1 H2 H3. unfold factor_calls. rewrite filter_app. f_equal.
  rewrite filter_cons_True by done.
  rewrite filter_cons_False by congruence.
  rewrite filter_cons_False by congruence. reflexivity.
Qed.

(** How the factors come about, as far as the loop has got: while fewer
    outputs than [nToBlind] have been blinded every factor was drawn at
    random; the one that completes the count is the blind sum over all the
    factors collected before it. *)
Lemma blind_loop_factors (f : frame) (rng : Rng) :
  let ins := present input_blinding_factors in
  let outs := present output_blinding_factors in
  let n := length (vout tx) in
  let m := length (to_blind_below output_pubkeys tx n) in
  for_loop n (blind_body output_pubkeys)
    (entry_frame input_blinding_factors output_blinding_factors
       output_pubkeys tx rng) = Returned f ->
  exists news,
    length news = m /\ f_blindptrs f = ins ++ outs ++ news /\
    (m = 0 \/
     exists init e rands,
       to_blind_below output_pubkeys tx n = init ++ [e] /\
       length rands = length init /\
       (secp256k1_pedersen_blind_sum (ins ++ outs ++ rands)
          (length outs + length rands + length ins) (length ins)).1 <> 0%Z /\
       news = rands ++
              [(secp256k1_pedersen_blind_sum (ins ++ outs ++ rands)
                  (length outs + length rands + length ins) (length ins)).2] /\
       factor_calls (f_calls f)
       = zip_with Call_GetRandBytes init rands ++
         [Call_blind_sum e (ins ++ outs ++ rands)
            (length outs + length rands + length ins) (length ins)
            (secp256k1_pedersen_blind_sum (ins ++ outs ++ rands)
               (length outs + length rands + length ins) (length ins)).2]).
Proof.
  intros ins outs n m Hret.
  pose (E := to_blind_below output_pubkeys tx).
  pose (I := 
    (fun k s =>
       f_nBlindsIn s = length ins /\ f_nToBlind s = m /\
       f_nBlinded s = length (E k) /\
       f_nBlindsOut s = length outs + length (E k) /\
       exists news,
         length news = length (E k) /\ f_blindptrs s = ins ++ outs ++ news /\
         ((length (E k) <> m \/ m = 0) /\
          factor_calls (f_calls s) = zip_with Call_GetRandBytes (E k) news
          \/
          length (E k) = m /\
          exists init e rands,
            E k = init ++ [e] /\ length rands = length init /\
            (secp256k1_pedersen_blind_sum (ins ++ outs ++ rands)
               (length outs + length rands + length ins) (length ins)).1 <> 0%Z /\
            news = rands ++
                   [(secp256k1_pedersen_blind_sum (ins ++ outs ++ rands)
                       (length outs + length rands + length ins) (length ins)).2] /\
            factor_calls (f_calls s)
            = zip_with Call_GetRandBytes init rands ++
              [Call_blind_sum e (ins ++ outs ++ rands)
                 (length outs + length rands + length ins) (length ins)
                 (secp256k1_pedersen_blind_sum (ins ++ outs ++ rands)
                    (length outs + length rands + length ins) (length ins)).2]))).
  assert (Hinv : I n f).
  { apply (blind_loop_invariant I n
             (entry_frame input_blinding_factors output_blinding_factors
                output_pubkeys tx rng) f eq_refl); [| |exact Hret]; unfold I.
    - cbn. repeat split; try done. exists []. rewrite app_nil_r.
      repeat split; try done. left. split; [|done].
      fold n. fold m. destruct m; [by right | by left].
    - intros k s s' Hk Hfr (HnI & HnT & HnB & HnO & news & Hln & Hptrs & Hfc) Hb.
      apply blind_body_Returned in Hb.
      destruct Hb as [[-> Hno] | (out & pk & Eo & Ea & Ep & Ev & Hb)].
      + pose proof (to_blind_false k s Hfr Hno) as Hf.
        unfold E in *. rewrite to_blind_below_S, Hf, app_nil_r.
        repeat split; try done. by exists news.
      + assert (Ht : to_blind output_pubkeys tx k = true).
        { rewrite (to_blind_of_lookup k s out pk Hfr Eo Ep), Ea, Ev. done. }
        assert (HS : E (S k) = E k ++ [k]).
        { unfold E. by rewrite to_blind_below_S, Ht. }
        assert (Hle : length (E (S k)) <= m).
        { apply to_blind_below_mono. lia. }
        rewrite HS, length_app in Hle. cbn [length] in Hle.
        destruct Hfc as [[_ Hfc] | [Hfull _]]; [|lia].
        cbv zeta in Hb. destruct Hb as (Hsum & _ & _ & _ & ->).
        cbn [f_nBlindsIn f_nToBlind f_nBlinded f_nBlindsOut f_blindptrs f_calls].
        rewrite HS, length_app. cbn [length].
        split; [done|]. split; [done|]. split; [lia|]. split; [lia|].
        rewrite HnB, HnT, HnO, HnI, Hptrs, <- Hln in *.
        destruct (length news + 1 =? m) eqn:El.
        * apply Nat.eqb_eq in El. specialize (Hsum eq_refl).
          eexists. split; [|split; [by rewrite <- !app_assoc|]].
          { rewrite length_app. cbn [length]. lia. }
          right. split; [lia|]. exists (E k), k, news.
          split; [done|]. split; [done|]. split; [done|]. split; [done|].
          rewrite factor_calls_snoc by done. by rewrite Hfc.
        * apply Nat.eqb_neq in El.
          eexists. split; [|split; [by rewrite <- !app_assoc|]].
          { rewrite length_app. cbn [length]. lia. }
          left. split; [left; lia|].
          rewrite factor_calls_snoc by done. rewrite Hfc.
          rewrite zip_with_app by done. reflexivity. }
  unfold I in Hinv.
  destruct Hinv as (_ & _ & _ & _ & news & Hln & Hptrs & Hfc).
  exists news. split; [done|]. split; [done|].
  destruct Hfc as [[[Hne | Hz] _] | [_ (init & e & rands & HE & Hlr & Hs & Hn & Hc)]].
  - unfold E in Hne. lia.
  - by left.
  - right. exists init, e, rands. done.
Qed.

Lemma sum_scalars_app (l1 l2 : list bytes) :
  sum_scalars (l1 ++ l2) = (sum_scalars l1 + sum_scalars l2)%Z.
Proof.
  unfold sum_scalars. induction l1 as [|b l1 IH]; cbn [foldr app]; [lia|].
  rewrite IH. lia.
Qed.

(** C4: when the call returns and some output needed a new factor, the
    outputs needing one are, in ascending index, [init] and then [e]; the
    factors of [init] were drawn at random, and the factor of [e], the last,
    is the one blind-sum computed over the input factors (the first
    [npositive], counted positively) and all output factors collected so
    far.  These are the factors the outputs are blinded with: each output
    holds the commitment and the range proof that the library made under
    its factor.  And the output factors sum to what the input factors sum
    to. *)
Theorem BlindOutputs_balancing_factor `{!BlindSum H} (rng : Rng) (f : frame) :
  BlindOutputs input_blinding_factors output_blinding_factors output_pubkeys
    tx rng = Returned f ->
  to_blind_below output_pubkeys tx (length (vout tx)) <> [] ->
  exists init e rands derived,
    to_blind_below output_pubkeys tx (length (vout tx)) = init ++ [e] /\
    length rands = length init /\
    factor_calls (f_calls f)
    = zip_with Call_GetRandBytes init rands ++
      [Call_blind_sum e
         (present input_blinding_factors ++ present output_blinding_factors
          ++ rands)
         (length (present output_blinding_factors) + length rands
          + length (present input_blinding_factors))
         (length (present input_blinding_factors)) derived] /\
    derived
    = (secp256k1_pedersen_blind_sum
         (present input_blinding_factors ++ present output_blinding_factors
          ++ rands)
         (length (present output_blinding_factors) + length rands
          + length (present input_blinding_factors))
         (length (present input_blinding_factors))).2 /\
    f_blindptrs f
    = present input_blinding_factors ++ present output_blinding_factors
      ++ rands ++ [derived] /\
    Forall2 (blinded_with output_pubkeys tx f) (init ++ [e])
      (rands ++ [derived]) /\
    (sum_scalars (present output_blinding_factors ++ rands ++ [derived])
       mod group_order
     = sum_scalars (present input_blinding_factors) mod group_order)%Z.
Proof.
  intros Hret Hne.
  destruct (BlindOutputs_checks input_blinding_factors output_blinding_factors
              output_pubkeys tx rng) as [[_ Hrun] | [_ (f' & Hab & _)]];
    [|congruence].
  rewrite Hrun in Hret.
  destruct (blind_loop_outputs _ f rng Hret) as (news' & Hptrs' & Hall).
  apply blind_loop_factors in Hret.
  destruct Hret as (news & Hln & Hptrs & [Hz | Hlast]).
  { apply length_zero_iff_nil in Hz. contradiction. }
  destruct Hlast as (init & e & rands & HE & Hlr & Hok & -> & Hfc).
  rewrite Hptrs in Hptrs'. do 2 apply app_inv_head in Hptrs'. subst news'.
  rewrite HE in Hall.
  set (ins := present input_blinding_factors) in *.
  set (outs := present output_blinding_factors) in *.
  exists init, e, rands. eexists.
  split; [exact HE|]. split; [exact Hlr|]. split; [exact Hfc|].
  split; [reflexivity|]. split; [exact Hptrs|].
  split; [eapply Forall2_impl; [exact Hall|]; by intros i b [_ ?]|].
  assert (Hn : length outs + length rands + length ins
               = length (ins ++ outs ++ rands)).
  { rewrite !length_app. lia. }
  rewrite Hn in *.
  pose proof (blind_sum_balances (ins ++ outs ++ rands) (length ins)
                ltac:(rewrite length_app; lia) Hok) as Hbal.
  rewrite take_app_length, drop_app_length in Hbal.
  rewrite <- Hbal.
  rewrite app_assoc, sum_scalars_app. cbn [sum_scalars foldr].
  f_equal. lia.
Qed.

End BlindLoop.


(** * Blinding, then unblinding *)

Section RoundTrip.
Context {H : Host}.
Context `{!KeyAgreement H, !Commitment H, !Rewindable H, !SignLength H,
          !Money H}.

(** A proof written into the buffer of 5134 bytes and trimmed to its length
    is the proof. *)
Lemma stored_proof (old proof : bytes) (n N : nat) :
  length proof = n -> n <= N ->
  vec_resize n (write_at0 (vec_resize N old) proof) = proof.
Proof.
  intros Hn HN. unfold write_at0. rewrite length_vec_resize.
  rewrite take_ge.
  - unfold vec_resize at 1. by apply resize_app.
  - rewrite length_app, length_drop, length_vec_resize. lia.
Qed.

Lemma to_uint64_id (a : Z) : (0 <= a < 2 ^ 63)%Z -> to_uint64 a = a.
Proof. intros Hr. unfold to_uint64. rewrite Z.mod_small; lia. Qed.

Lemma to_int64_id (a : Z) : (0 <= a < 2 ^ 63)%Z -> to_int64 a = a.
Proof. intros Hr. unfold to_int64. rewrite Z.mod_small; lia. Qed.

(** The recipient of a value blinded by lines 114-132 recovers its amount
    and the factor. *)
Lemma UnblindOutput_blinded_value (recipient : CKey) (blind : bytes) (g : Rng)
    (value : CTxOutValue) (script : bytes) (amount_out : Z)
    (blinding_factor_out : bytes) :
  IsValid (GetPubKey recipient) = true ->
  MoneyRange (GetAmount value) = true ->
  length (vchCommitment value) = 33 ->
  length blind = 32 ->
  blinding_asserted (GetPubKey recipient) blind g value ->
  UnblindOutput recipient
    (mkCTxOut (blinded_value (GetPubKey recipient) blind g value) script)
    amount_out blinding_factor_out
  = mkUnblind 1 (GetAmount value) blind.
Proof.
  intros Hvalid Hmr Hc33 Hb32 (Hcom & Hres & Hlen).
  cbv zeta in Hcom, Hres, Hlen.
  unfold UnblindOutput, blinded_value. cbv zeta.
  pose proof (money_range _ Hmr) as HA. pose proof max_money_int64 as HM.
  rewrite (to_uint64_id (GetAmount value)) in * by lia.
  set (A := GetAmount value) in *.
  pose proof (commit_length blind A Hcom) as Hcl.
  rewrite (write_at0_full (vchCommitment value)) in * by lia.
  set (com := (secp256k1_pedersen_commit blind A).2) in *.
  set (eph := (MakeNewKey g).1) in *.
  assert (Hnc : memcpy (vec_resize 33 (vchNonceCommitment value))
                  (pubkey_data (GetPubKey eph)) 33
                = take 33 (pubkey_data (GetPubKey eph))).
  { unfold memcpy. apply write_at0_full.
    rewrite length_vec_resize, length_take.
    pose proof (new_key_data g) as Hd. fold eph in Hd. lia. }
  cbn [nValue vchCommitment vchRangeproof vchNonceCommitment].
  pose proof (new_key_compressed g) as Hk. fold eph in Hk.
  pose proof (new_key_valid g) as Hv. fold eph in Hv.
  rewrite Hnc, Hk.
  erewrite commit_blinded; [|exact Hcom|reflexivity].
  rewrite Hv. cbn [negb].
  rewrite <- (ecdh_agree eph recipient Hv Hvalid).
  set (nonce := Hash256 (pubkey_bytes (ECDH eph (GetPubKey recipient)))) in *.
  set (exp := Z.min (Z.max (to_int (GetArg "-ct_exponent" 0)) (-1)) 18) in *.
  set (bits := Z.min (Z.max (to_int (GetArg "-ct_bits" 32)) 1) 51) in *.
  set (sr := secp256k1_rangeproof_sign 5134 0 com blind nonce exp bits A) in *.
  pose proof (sign_proof_length 5134 0 com blind nonce exp bits A Hres) as Hpl.
  pose proof (sign_length 5134 0 com blind nonce exp bits A) as Hsl.
  fold sr in Hpl, Hsl.
  rewrite stored_proof by lia.
  destruct (rewind_sign 5134 0 blind nonce exp bits A Hcom Hb32 Hres)
    as (Hr & Hrb & Hra).
  fold com in Hr, Hrb, Hra. fold sr in Hr, Hrb, Hra.
  rewrite Hrb, Hra. apply Z.eqb_neq in Hr. rewrite Hr.
  rewrite to_uint64_id, to_int64_id by lia. fold A. rewrite Hmr.
  replace (MAX_MONEY <? A)%Z with false by (symmetry; apply Z.ltb_ge; lia).
  cbn [orb negb]. f_equal.
  apply write_at0_full. by rewrite length_vec_resize.
Qed.

Section Loop.
Context `{!FactorLength H}.
Variables (input_blinding_factors output_blinding_factors : list bytes).
Variable output_pubkeys : list CPubKey.
Variable tx : CMutableTransaction.

(** Every output that the loop has blinded holds [blinded_value] of what
    it held, for a 32-byte factor that is on the list of factors and on
    record as the one committed to. *)
Lemma blind_loop_values (n : nat) (f : frame) (rng : Rng) :
  for_loop n (blind_body output_pubkeys)
    (entry_frame input_blinding_factors output_blinding_factors
       output_pubkeys tx rng) = Returned f ->
  forall i, i < n -> to_blind output_pubkeys tx i = true ->
    exists out pk blind g,
      vout tx !! i = Some out /\ output_pubkeys !! i = Some pk /\
      length blind = 32 /\ blind ∈ f_blindptrs f /\
      Call_commit i blind (to_uint64 (GetAmount (nValue out)))
        (secp256k1_pedersen_commit blind
           (to_uint64 (GetAmount (nValue out)))).2 ∈ f_calls f /\
      blinding_asserted pk blind g (nValue out) /\
      f_vout f !! i
      = Some (mkCTxOut (blinded_value pk blind g (nValue out))
                (scriptPubKey out)).
Proof.
  apply (blind_loop_invariant output_pubkeys tx (fun k s =>
    forall i, i < k -> to_blind output_pubkeys tx i = true ->
      exists out pk blind g,
        vout tx !! i = Some out /\ output_pubkeys !! i = Some pk /\
        length blind = 32 /\ blind ∈ f_blindptrs s /\
        Call_commit i blind (to_uint64 (GetAmount (nValue out)))
          (secp256k1_pedersen_commit blind
             (to_uint64 (GetAmount (nValue out)))).2 ∈ f_calls s /\
        blinding_asserted pk blind g (nValue out) /\
        f_vout s !! i
        = Some (mkCTxOut (blinded_value pk blind g (nValue out))
                  (scriptPubKey out)))); [reflexivity | | ].
  - intros i Hi. lia.
  - intros k s s' Hk Hfr Hinv Hb.
    apply blind_body_Returned in Hb.
    destruct Hb as [[-> Hno] | (out & pk & Eo & Ea & Ep & Ev & Hb)].
    + pose proof (to_blind_false output_pubkeys tx k s Hfr Hno) as Hf.
      intros i Hi Hi'. destruct (decide (i = k)) as [->|]; [congruence|].
      apply Hinv; [lia | done].
    + cbv zeta in Hb. destruct Hb as (Hsum & Hcom & Hres & Hlen & ->).
      intros i Hi Hi'. cbn [f_vout f_blindptrs f_calls].
      destruct (decide (i = k)) as [->|Hne].
      * exists out, pk. do 2 eexists.
        split; [by rewrite <- Hfr|]. split; [done|].
        split; [|split; [|split; [|split]]].
        5: { rewrite (lookup_set_nValue_eq _ _ _ _ Eo).
             unfold blinded_value. cbv zeta. reflexivity. }
        -- destruct (f_nBlinded s + 1 =? f_nToBlind s).
           ++ apply blind_sum_length. by apply Hsum.
           ++ apply rand_length.
        -- apply elem_of_app. right. by apply list_elem_of_singleton.
        -- apply elem_of_app. right. apply elem_of_cons. right.
           apply elem_of_cons. by left.
        -- unfold blinding_asserted. cbv zeta. done.
      * destruct (Hinv i ltac:(lia) Hi')
          as (o & p & b & g & E1 & E2 & Hl & Hin & Hc & Has & Hv).
        exists o, p, b, g. repeat split; try done.
        -- apply elem_of_app. by left.
        -- apply elem_of_app. by left.
        -- by destruct Has.
        -- by destruct Has as (_ & ? & _).
        -- by destruct Has as (_ & _ & ?).
        -- by rewrite lookup_set_nValue_ne by done.
Qed.

(** C3: when the call returns, an explicit output of an amount [A] in the
    money range that was addressed to the public key of [recipient] unblinds
    under the private key of [recipient] with the return value 1, the
    amount [A], and a factor of 32 bytes: the one on record as the blind of
    the commitment the output now holds. *)
Theorem BlindOutputs_UnblindOutput_round_trip (rng : Rng) (f : frame)
    (i : nat) (out : CTxOut) (recipient : CKey) (A : Z)
    (amount_out : Z) (blinding_factor_out : bytes) :
  BlindOutputs input_blinding_factors output_blinding_factors output_pubkeys
    tx rng = Returned f ->
  vout tx !! i = Some out ->
  IsAmount (nValue out) = true ->
  GetAmount (nValue out) = A ->
  MoneyRange A = true ->
  length (vchCommitment (nValue out)) = 33 ->
  output_pubkeys !! i = Some (GetPubKey recipient) ->
  IsValid (GetPubKey recipient) = true ->
  exists out' blind,
    f_vout f !! i = Some out' /\
    IsAmount (nValue out') = false /\
    length blind = 32 /\ blind ∈ f_blindptrs f /\
    Call_commit i blind (to_uint64 A) (vchCommitment (nValue out')) ∈ f_calls f /\
    UnblindOutput recipient out' amount_out blinding_factor_out
    = mkUnblind 1 A blind.
Proof.
  intros Hret Eo Ea HA Hmr Hc33 Ep Ev.
  destruct (BlindOutputs_checks input_blinding_factors output_blinding_factors
              output_pubkeys tx rng) as [[_ Hrun] | [_ (f' & Hab & _)]];
    [|congruence].
  rewrite Hrun in Hret.
  assert (Hlt : i < length (vout tx)) by (eapply lookup_lt_Some, Eo).
  assert (Ht : to_blind output_pubkeys tx i = true).
  { unfold to_blind. by rewrite Eo, Ep, Ea, Ev. }
  destruct (blind_loop_values _ f rng Hret i Hlt Ht)
    as (o & p & blind & g & E1 & E2 & Hl & Hin & Hc & Has & Hv).
  rewrite Eo in E1. rewrite Ep in E2. simplify_eq.
  pose proof Has as (Hcom & _ & _). cbv zeta in Hcom.
  pose proof (commit_length _ _ Hcom) as Hcl.
  eexists. exists blind. split; [exact Hv|].
  cbn [nValue]. split; [|split; [done|split; [done|split]]].
  - eapply commit_blinded; [exact Hcom|].
    unfold blinded_value. cbv zeta. cbn [vchCommitment].
    apply write_at0_full. lia.
  - unfold blinded_value at 1. cbv zeta. cbn [vchCommitment].
    rewrite write_at0_full by lia. exact Hc.
  - by apply UnblindOutput_blinded_value.
Qed.

End Loop.

End RoundTrip.


(** * The reference instance keeps the contracts *)

Section ReferenceFacts.
Import Reference.

Lemma Z_of_byte_of_Z (z : Z) : Z_of_byte (byte_of_Z z) = (z mod 256)%Z.
Proof.
  unfold Z_of_byte, byte_of_Z.
  pose proof (Z.mod_pos_bound z 256 ltac:(lia)) as Hb.
  destruct (Strings.Byte.of_N (Z.to_N (z mod 256))) as [b|] eqn:E; simpl.
  - apply Strings.Byte.to_of_N in E. rewrite E. lia.
  - apply Strings.Byte.of_N_None_iff in E. lia.
Qed.

Lemma bytes_eqb_refl (a : bytes) : bytes_eqb a a = true.
Proof. unfold bytes_eqb. by apply bool_decide_eq_true. Qed.

Lemma length_le_bytes (n : nat) (z : Z) : length (le_bytes n z) = n.
Proof. revert z. induction n as [|n IH]; intros z; cbn; [done|]. by rewrite IH. Qed.

Lemma length_be_bytes (n : nat) (z : Z) : length (be_bytes n z) = n.
Proof. unfold be_bytes. by rewrite length_rev, length_le_bytes. Qed.

Lemma le_value_le_bytes (n : nat) (z : Z) :
  le_value (le_bytes n z) = (z mod 256 ^ Z.of_nat n)%Z.
Proof.
  revert z. induction n as [|n IH]; intros z; cbn [le_bytes le_value].
  - by rewrite Z.mod_1_r.
  - rewrite IH, Z_of_byte_of_Z, Nat2Z.inj_succ, Z.pow_succ_r by lia.
    rewrite Z.rem_mul_r by lia. reflexivity.
Qed.

Lemma be_value_be_bytes (n : nat) (z : Z) :
  be_value (be_bytes n z) = (z mod 256 ^ Z.of_nat n)%Z.
Proof.
  unfold be_value, be_bytes. rewrite rev_involutive. apply le_value_le_bytes.
Qed.

Variable config : string -> option Z.

#[local] Instance ref_SignLength : SignLength (ref_host config).
Proof.
  intros plen mv c b n e mb v.
  cbn [secp256k1_rangeproof_sign ref_host]. unfold ref_sign.
  destruct (_ && _) eqn:E; cbn [sg_len]; [|lia].
  apply andb_prop in E. destruct E as [_ E]. by apply Z.leb_le.
Qed.

#[local] Instance ref_FactorLength : FactorLength (ref_host config).
Proof.
  split.
  - intros g n. cbn. apply length_replicate.
  - intros ptrs n np _. exact (length_be_bytes 32 _).
Qed.

#[local] Instance ref_Money : Money (ref_host config).
Proof.
  split.
  - intros a Ha. cbn in *. apply andb_prop in Ha. destruct Ha as [H1 H2].
    apply Z.leb_le in H1, H2. done.
  - cbn. unfold ref_MAX_MONEY. lia.
Qed.

#[local] Instance ref_Commitment : Commitment (ref_host config).
Proof.
  split.
  - intros blind amount. cbn. unfold ref_commit.
    destruct (length blind =? 32); cbn [fst snd]; [|done].
    intros _. cbn [length]. by rewrite length_be_bytes.
  - intros value blind amount. cbn. unfold ref_commit, ref_IsAmount.
    destruct (length blind =? 32); cbn; [|done].
    intros _ ->. reflexivity.
Qed.

#[local] Instance ref_KeyAgreement : KeyAgreement (ref_host config).
Proof.
  split.
  - intros a b _ _. cbn. unfold ref_ECDH. cbn [ref_pubkey nth].
    by rewrite Z.mul_comm.
  - intros g. reflexivity.
  - intros g.
    change (33 <= length (vec_resize 65 (ref_pubkey (byte_of_Z (Z.of_nat g + 7))))).
    rewrite length_vec_resize. lia.
  - intros g. reflexivity.
Qed.

#[local] Instance ref_BlindSum : BlindSum (ref_host config).
Proof.
  intros ptrs np Hnp _. cbn [secp256k1_pedersen_blind_sum ref_host].
  unfold ref_blind_sum. cbn [snd].
  rewrite firstn_all. unfold scalar at 1. rewrite be_value_be_bytes.
  set (x := (sum_scalars (take np ptrs) - sum_scalars (drop np ptrs))%Z).
  assert (Hq : (0 < group_order < 256 ^ Z.of_nat 32)%Z) by (vm_compute; done).
  pose proof (Z.mod_pos_bound x group_order ltac:(lia)) as Hx.
  rewrite (Z.mod_small (x mod group_order)) by lia.
  rewrite Zmod_mod, Zplus_mod_idemp_l. f_equal. unfold x. lia.
Qed.

#[local] Instance ref_Rewindable : Rewindable (ref_host config).
Proof.
  split.
  - intros plen mv c b n e mb v.
    cbn [secp256k1_rangeproof_sign ref_host]. unfold ref_sign.
    destruct (_ && _); cbn [sg_res sg_proof sg_len]; done.
  - intros plen mv blind nonce e mb value _ _.
    cbn [secp256k1_rangeproof_sign secp256k1_rangeproof_rewind
         secp256k1_pedersen_commit ref_host].
    unfold ref_sign.
    destruct (_ && _) eqn:E; cbn [sg_res sg_proof]; [|done]. intros _.
    apply andb_prop in E. destruct E as [E _].
    apply andb_prop in E. destruct E as [E Hhi].
    apply andb_prop in E. destruct E as [Hb Hlo].
    apply Nat.eqb_eq in Hb. apply Z.leb_le in Hlo. apply Z.ltb_lt in Hhi.
    unfold ref_rewind.
    rewrite take_app_length, bytes_eqb_refl.
    rewrite !length_app, length_be_bytes, Hb.
    rewrite Nat.eqb_refl. cbn [andb rw_res rw_blind rw_amount].
    split; [done|]. split.
    + rewrite drop_app_length. by apply take_app_length'.
    + rewrite drop_app_add, drop_app_length' by done.
      rewrite be_value_be_bytes. apply Z.mod_small. lia.
Qed.

End ReferenceFacts.

(** * The model on concrete inputs *)

Section Examples.
Import Reference.

Lemma UnblindOutput_out_of_range_returns_1_witness :
  @IsAmount host0 (nValue tampered_out) = false /\
  ub_ret (@UnblindOutput host0 key5 tampered_out 7 [Byte.x01]) = 1%Z /\
  ub_ret (@UnblindOutput host0 key5 tampered_out 7 [Byte.x01]) <> 0%Z /\
  ub_amount_out (@UnblindOutput host0 key5 tampered_out 7 [Byte.x01]) = 0%Z /\
  ub_blinding_factor_out (@UnblindOutput host0 key5 tampered_out 7 [Byte.x01]) = [].
Proof.
  split; [reflexivity|].
  apply (@UnblindOutput_out_of_range_returns_1 host0 key5 tampered_out 7
           [Byte.x01]).
  - reflexivity.
  - reflexivity.
  - vm_compute. discriminate.
  - left. vm_compute. reflexivity.
Defined.

(** C2 fails as stated: with 7 and one byte passed in, the call on an
    output without a valid nonce commitment returns 0 and leaves 7 and that
    byte in place, not 0 and the empty vector. *)
Lemma UnblindOutput_invalid_key_not_cleared :
  @IsAmount host0 (nValue keyless_out) = false /\
  @IsValid host0 (CPubKey_of_vch (vchNonceCommitment (nValue keyless_out))) = false /\
  @UnblindOutput host0 key5 keyless_out 7 [Byte.x01] = mkUnblind 0 7 [Byte.x01] /\
  @UnblindOutput host0 key5 keyless_out 7 [Byte.x01] <> mkUnblind 0 0 [].
Proof.
  repeat split; try reflexivity. vm_compute. discriminate.
Qed.

Lemma UnblindOutput_invalid_key_failure_witness :
  ub_ret (@UnblindOutput host0 key5 keyless_out 7 [Byte.x01]) = 0%Z /\
  ub_amount_out (@UnblindOutput host0 key5 keyless_out 7 [Byte.x01]) = 7%Z /\
  ub_blinding_factor_out (@UnblindOutput host0 key5 keyless_out 7 [Byte.x01])
    = [Byte.x01] /\
  (7%Z = 0%Z -> [Byte.x01] = [] ->
   @UnblindOutput host0 key5 keyless_out 7 [Byte.x01] = mkUnblind 0 0 []).
Proof.
  apply (@UnblindOutput_invalid_key_failure host0 key5 keyless_out 7 [Byte.x01]);
    reflexivity.
Defined.

Lemma UnblindOutput_invalid_key_frame_witness :
  @UnblindOutput host0 key5 keyless_out 7 [Byte.x01] = mkUnblind 0 7 [Byte.x01] /\
  ((length (ub_blinding_factor_out
              (@UnblindOutput host0 key5 keyless_out 7 [Byte.x01])) = 0
    \/ length (ub_blinding_factor_out
              (@UnblindOutput host0 key5 keyless_out 7 [Byte.x01])) = 32)
   <-> (length [Byte.x01] = 0 \/ length [Byte.x01] = 32)).
Proof.
  apply (@UnblindOutput_invalid_key_frame host0 key5 keyless_out 7 [Byte.x01]);
    reflexivity.
Defined.

Lemma UnblindOutput_explicit_witness :
  @UnblindOutput host0 key5 (explicit_out 12345) 7 [Byte.x01]
  = mkUnblind (-1) 12345 [].
Proof.
  apply (@UnblindOutput_explicit host0 key5 (explicit_out 12345) 12345 7
           [Byte.x01]); reflexivity.
Defined.

Lemma BlindOutputs_fatal_precondition_witness :
  @fatal_violation host0 ibf1 [[]] pks3 tx3 /\
  exists f, @BlindOutputs host0 ibf1 [[]] pks3 tx3 0 = Aborted f /\
            f_vout f = vout tx3 /\ f_calls f = [].
Proof.
  assert (Hv : @fatal_violation host0 ibf1 [[]] pks3 tx3).
  { left. left. vm_compute. lia. }
  split; [exact Hv|].
  exact (@BlindOutputs_fatal_precondition host0 ibf1 [[]] pks3 tx3 0 Hv).
Defined.

Lemma BlindOutputs_ineligible_unchanged_witness :
  vout tx3 !! 2 = Some (explicit_out 5) /\
  f_vout (state_of (@BlindOutputs host0 ibf1 obf3 pks3 tx3 0)) !! 2
  = Some (explicit_out 5).
Proof.
  split; [reflexivity|].
  apply (@BlindOutputs_ineligible_unchanged host0 ibf1 obf3 pks3 tx3 0 2
           (explicit_out 5)).
  - reflexivity.
  - right. intros pk [= <-]. reflexivity.
Defined.


(** The parameters that signing receives for the configured values that
    the specification names. *)
Example sign_parameters_25 :
  f_calls (state_of (@BlindOutputs (ref_host (config_exponent 25))
                       ibf1 obf3 pks3 tx3 0)) !! 2
  = Some (Call_sign 0 18 32 72).
Proof. vm_compute. reflexivity. Qed.

Example sign_parameters_minus_5 :
  f_calls (state_of (@BlindOutputs (ref_host (config_exponent (-5)))
                       ibf1 obf3 pks3 tx3 0)) !! 2
  = Some (Call_sign 0 (-1) 32 72).
Proof. vm_compute. reflexivity. Qed.

Example sign_parameters_bits_0 :
  f_calls (state_of (@BlindOutputs (ref_host (config_bits 0))
                       ibf1 obf3 pks3 tx3 0)) !! 2
  = Some (Call_sign 0 0 1 72).
Proof. vm_compute. reflexivity. Qed.

Example sign_parameters_bits_100 :
  f_calls (state_of (@BlindOutputs (ref_host (config_bits 100))
                       ibf1 obf3 pks3 tx3 0)) !! 2
  = Some (Call_sign 0 0 51 72).
Proof. vm_compute. reflexivity. Qed.

Lemma BlindOutputs_proof_length_witness :
  @BlindOutputs host0 ibf1 obf3 pks3 tx3 0 = Returned run3 /\
  (forall i out,
     vout tx3 !! i = Some out -> @to_blind host0 pks3 tx3 i = true ->
     exists pk blind g,
       pks3 !! i = Some pk /\
       f_vout run3 !! i
       = Some (mkCTxOut (@blinded_value host0 pk blind g (nValue out))
                 (scriptPubKey out)) /\
       sg_res (@proof_signed host0 pk blind g (nValue out)) <> 0%Z /\
       vchRangeproof (@blinded_value host0 pk blind g (nValue out))
       = vec_resize
           (Z.to_nat (sg_len (@proof_signed host0 pk blind g (nValue out))))
           (write_at0
              (vec_resize (Z.to_nat 5134) (vchRangeproof (nValue out)))
              (sg_proof (@proof_signed host0 pk blind g (nValue out)))) /\
       Z.of_nat (length (vchRangeproof
                           (@blinded_value host0 pk blind g (nValue out))))
       = sg_len (@proof_signed host0 pk blind g (nValue out)) /\
       (sg_len (@proof_signed host0 pk blind g (nValue out)) <= 5134)%Z /\
       Call_sign i
         (Z.min (Z.max (to_int (@GetArg host0 "-ct_exponent" 0)) (-1)) 18)
         (Z.min (Z.max (to_int (@GetArg host0 "-ct_bits" 32)) 1) 51)
         (sg_len (@proof_signed host0 pk blind g (nValue out)))
       ∈ f_calls run3) /\
  Forall (proof_stored run3) (f_calls run3).
Proof.
  assert (Hb : returned (@BlindOutputs host0 ibf1 obf3 pks3 tx3 0) = true)
    by (vm_compute; reflexivity).
  pose proof (returned_state _ Hb) as Hr.
  split; [exact Hr|].
  exact (@BlindOutputs_proof_length host0 ibf1 obf3 pks3 tx3
           (ref_SignLength no_config) 0 run3 Hr).
Defined.

(** The proof stored for the first output of [tx3]: 72 bytes, the length
    that signing reported. *)
Example stored_proof_length_72 :
  (vchRangeproof ∘ nValue) <$> f_vout run3 !! 0
  = Some (sg_proof (@proof_signed host0 (ref_pubkey key21)
                      (replicate 32 Byte.x01) 1
                      (nValue (explicit_out 1000)))) /\
  sg_len (@proof_signed host0 (ref_pubkey key21) (replicate 32 Byte.x01) 1
            (nValue (explicit_out 1000))) = 72%Z.
Proof. split; vm_compute; reflexivity. Qed.

Lemma BlindOutputs_balancing_factor_witness :
  @BlindOutputs host0 ibf1 obf3 pks3 tx3 0 = Returned run3 /\
  @to_blind_below host0 pks3 tx3 (length (vout tx3)) <> [] /\
  exists init e rands derived,
    @to_blind_below host0 pks3 tx3 (length (vout tx3)) = init ++ [e] /\
    length rands = length init /\
    factor_calls (f_calls run3)
    = zip_with Call_GetRandBytes init rands ++
      [Call_blind_sum e (present ibf1 ++ present obf3 ++ rands)
         (length (present obf3) + length rands + length (present ibf1))
         (length (present ibf1)) derived] /\
    derived
    = (@secp256k1_pedersen_blind_sum host0
         (present ibf1 ++ present obf3 ++ rands)
         (length (present obf3) + length rands + length (present ibf1))
         (length (present ibf1))).2 /\
    f_blindptrs run3 = present ibf1 ++ present obf3 ++ rands ++ [derived] /\
    Forall2 (@blinded_with host0 pks3 tx3 run3) (init ++ [e])
      (rands ++ [derived]) /\
    (sum_scalars (present obf3 ++ rands ++ [derived]) mod group_order
     = sum_scalars (present ibf1) mod group_order)%Z.
Proof.
  assert (Hb : returned (@BlindOutputs host0 ibf1 obf3 pks3 tx3 0) = true)
    by (vm_compute; reflexivity).
  pose proof (returned_state _ Hb) as Hr.
  assert (Hne : @to_blind_below host0 pks3 tx3 (length (vout tx3)) <> [])
    by (vm_compute; discriminate).
  split; [exact Hr|]. split; [exact Hne|].
  exact (@BlindOutputs_balancing_factor host0 ibf1 obf3 pks3 tx3
           (ref_BlindSum no_config) 0 run3 Hr Hne).
Defined.

Lemma BlindOutputs_UnblindOutput_round_trip_witness :
  @BlindOutputs host0 ibf1 obf3 pks3 tx3 0 = Returned run3 /\
  vout tx3 !! 0 = Some (explicit_out 1000) /\
  @MoneyRange host0 1000 = true /\
  exists out' blind,
    f_vout run3 !! 0 = Some out' /\
    @IsAmount host0 (nValue out') = false /\
    length blind = 32 /\ blind ∈ f_blindptrs run3 /\
    Call_commit 0 blind (to_uint64 1000) (vchCommitment (nValue out'))
      ∈ f_calls run3 /\
    @UnblindOutput host0 key21 out' 7 [Byte.x01] = mkUnblind 1 1000 blind.
Proof.
  assert (Hb : returned (@BlindOutputs host0 ibf1 obf3 pks3 tx3 0) = true)
    by (vm_compute; reflexivity).
  pose proof (returned_state _ Hb) as Hr.
  split; [exact Hr|]. split; [reflexivity|]. split; [reflexivity|].
  apply (@BlindOutputs_UnblindOutput_round_trip host0
           (ref_KeyAgreement no_config) (ref_Commitment no_config)
           (ref_Rewindable no_config) (ref_SignLength no_config)
           (ref_Money no_config) (ref_FactorLength no_config)
           ibf1 obf3 pks3 tx3 0 run3 0 (explicit_out 1000) key21 1000 7
           [Byte.x01] Hr); reflexivity.
Defined.

End Examples.

(** * More of output unblinding *)

Section UnblindCases.
Context {H : Host}.
Variables (key : CKey) (txout : CTxOut).
Variables (amount_out : Z) (blinding_factor_out : bytes).

Lemma UnblindOutput_blinded_valid :
  IsAmount (nValue txout) = false ->
  IsValid (CPubKey_of_vch (vchNonceCommitment (nValue txout))) = true ->
  UnblindOutput key txout amount_out blinding_factor_out
  = let r := rewound key txout in
    let ret := if (rw_res r =? 0)%Z then 0%Z else 1%Z in
    if (rw_res r =? 0)%Z || (to_uint64 MAX_MONEY <? rw_amount r)%Z
       || negb (MoneyRange (to_int64 (rw_amount r)))
    then mkUnblind ret 0 []
    else mkUnblind ret (to_int64 (rw_amount r))
           (write_at0 (vec_resize 32 blinding_factor_out) (rw_blind r)).
Proof.
  intros Hbl Hval. unfold UnblindOutput, rewound.
  rewrite Hbl, Hval. cbn [negb]. cbv zeta.
  destruct (_ || _); [by rewrite vec_resize_0 | reflexivity].
Qed.

(** X1: on a blinded output with a valid nonce commitment the call returns
    0 exactly when the rewind fails, and a return of 0 comes with the
    amount 0 and the empty factor, whatever the caller had passed. *)
Theorem UnblindOutput_failed_rewind_clears :
  IsAmount (nValue txout) = false ->
  IsValid (CPubKey_of_vch (vchNonceCommitment (nValue txout))) = true ->
  (ub_ret (UnblindOutput key txout amount_out blinding_factor_out) = 0%Z
   <-> rw_res (rewound key txout) = 0%Z) /\
  (ub_ret (UnblindOutput key txout amount_out blinding_factor_out) = 0%Z ->
   ub_amount_out (UnblindOutput key txout amount_out blinding_factor_out) = 0%Z
   /\ ub_blinding_factor_out
        (UnblindOutput key txout amount_out blinding_factor_out) = []).
Proof.
  intros Hbl Hval. rewrite (UnblindOutput_blinded_valid Hbl Hval). cbv zeta.
  destruct (rw_res (rewound key txout) =? 0)%Z eqn:E; cbn [orb].
  - apply Z.eqb_eq in E. cbn. by split.
  - apply Z.eqb_neq in E.
    destruct (_ || _); cbn; (split; [split; intros; [lia | done] | intros; lia]).
Qed.

(** X2: when the rewind succeeds with an amount that passes both range
    checks, the call returns 1 with that amount and a factor of 32 bytes:
    the bytes the rewind wrote, over what the caller's vector held if it
    wrote fewer than 32. *)
Theorem UnblindOutput_success :
  IsAmount (nValue txout) = false ->
  IsValid (CPubKey_of_vch (vchNonceCommitment (nValue txout))) = true ->
  rw_res (rewound key txout) <> 0%Z ->
  (rw_amount (rewound key txout) <= to_uint64 MAX_MONEY)%Z ->
  MoneyRange (to_int64 (rw_amount (rewound key txout))) = true ->
  ub_ret (UnblindOutput key txout amount_out blinding_factor_out) = 1%Z /\
  ub_amount_out (UnblindOutput key txout amount_out blinding_factor_out)
  = to_int64 (rw_amount (rewound key txout)) /\
  length (ub_blinding_factor_out
            (UnblindOutput key txout amount_out blinding_factor_out)) = 32 /\
  (length (rw_blind (rewound key txout)) = 32 ->
   ub_blinding_factor_out
     (UnblindOutput key txout amount_out blinding_factor_out)
   = rw_blind (rewound key txout)).
Proof.
  intros Hbl Hval Hres Hmax Hmr.
  rewrite (UnblindOutput_blinded_valid Hbl Hval). cbv zeta.
  apply Z.eqb_neq in Hres. rewrite Hres, Hmr.
  replace (to_uint64 MAX_MONEY <? rw_amount (rewound key txout))%Z with false
    by (symmetry; apply Z.ltb_ge; lia).
  cbn [orb negb ub_ret ub_amount_out ub_blinding_factor_out].
  split; [done|]. split; [done|]. split.
  - by rewrite length_write_at0, length_vec_resize.
  - intros Hl. apply write_at0_full. by rewrite length_vec_resize.
Qed.

(** X3: on a blinded output with a valid nonce commitment the amount handed
    back is 0 or lies in the money range; in the latter case, if not 0, the
    call returned 1 and the factor has 32 bytes. *)
Theorem UnblindOutput_amount_in_range :
  IsAmount (nValue txout) = false ->
  IsValid (CPubKey_of_vch (vchNonceCommitment (nValue txout))) = true ->
  ub_amount_out (UnblindOutput key txout amount_out blinding_factor_out) = 0%Z
  \/ (MoneyRange (ub_amount_out
                    (UnblindOutput key txout amount_out blinding_factor_out))
      = true /\
      ub_ret (UnblindOutput key txout amount_out blinding_factor_out) = 1%Z /\
      length (ub_blinding_factor_out
                (UnblindOutput key txout amount_out blinding_factor_out)) = 32).
Proof.
  intros Hbl Hval. rewrite (UnblindOutput_blinded_valid Hbl Hval). cbv zeta.
  destruct (rw_res (rewound key txout) =? 0)%Z eqn:E; cbn [orb]; [by left|].
  destruct (to_uint64 MAX_MONEY <? rw_amount (rewound key txout))%Z;
    cbn [orb]; [by left|].
  destruct (MoneyRange (to_int64 (rw_amount (rewound key txout)))) eqn:Em;
    cbn [negb]; [|by left].
  right. cbn [ub_ret ub_amount_out ub_blinding_factor_out].
  split; [done|]. split; [done|].
  by rewrite length_write_at0, length_vec_resize.
Qed.

(** X4: the value returned is -1, 0 or 1; it is -1 exactly for an explicit
    amount, and 1 exactly for a blinded output with a valid nonce
    commitment whose proof the library rewound. *)
Theorem UnblindOutput_return_value :
  (ub_ret (UnblindOutput key txout amount_out blinding_factor_out) = (-1)%Z
   <-> IsAmount (nValue txout) = true) /\
  (ub_ret (UnblindOutput key txout amount_out blinding_factor_out) = 1%Z
   <-> IsAmount (nValue txout) = false /\
       IsValid (CPubKey_of_vch (vchNonceCommitment (nValue txout))) = true /\
       rw_res (rewound key txout) <> 0%Z) /\
  (ub_ret (UnblindOutput key txout amount_out blinding_factor_out) = (-1)%Z \/
   ub_ret (UnblindOutput key txout amount_out blinding_factor_out) = 0%Z \/
   ub_ret (UnblindOutput key txout amount_out blinding_factor_out) = 1%Z).
Proof.
  destruct (IsAmount (nValue txout)) eqn:Ea.
  - unfold UnblindOutput. rewrite Ea. cbn [ub_ret].
    split; [done|]. split; [|by left]. split; [lia | by intros [? _]].
  - destruct (IsValid (CPubKey_of_vch (vchNonceCommitment (nValue txout))))
      eqn:Ev.
    + rewrite (UnblindOutput_blinded_valid Ea Ev). cbv zeta.
      destruct (rw_res (rewound key txout) =? 0)%Z eqn:E; cbn [orb].
      * apply Z.eqb_eq in E. cbn [ub_ret].
        split; [split; [lia | done]|]. split; [|right; by left].
        split; [lia | by intros (_ & _ & ?)].
      * apply Z.eqb_neq in E.
        destruct (_ || _); cbn [ub_ret];
          (split; [split; [lia | done]|]); (split; [|right; by right]);
          (split; [done | done]).
    + unfold UnblindOutput. rewrite Ea, Ev. cbn [negb ub_ret].
      split; [split; [lia | done]|]. split; [|right; by left].
      split; [lia | by intros (_ & ? & _)].
Qed.

(** X5: unless the output is blinded with an invalid nonce commitment, the
    factor handed back has length 0 or 32 whatever vector the caller passed,
    and it is empty for an explicit amount. *)
Theorem UnblindOutput_factor_length :
  IsAmount (nValue txout) = true \/
  IsValid (CPubKey_of_vch (vchNonceCommitment (nValue txout))) = true ->
  (length (ub_blinding_factor_out
             (UnblindOutput key txout amount_out blinding_factor_out)) = 0 \/
   length (ub_blinding_factor_out
             (UnblindOutput key txout amount_out blinding_factor_out)) = 32) /\
  (IsAmount (nValue txout) = true ->
   ub_blinding_factor_out
     (UnblindOutput key txout amount_out blinding_factor_out) = []).
Proof.
  intros Hor.
  destruct (IsAmount (nValue txout)) eqn:Ea.
  - unfold UnblindOutput. rewrite Ea, vec_resize_0.
    cbn [ub_blinding_factor_out]. split; [by left | done].
  - destruct Hor as [|Ev]; [done|]. split; [|done].
    rewrite (UnblindOutput_blinded_valid Ea Ev). cbv zeta.
    destruct (_ || _); cbn [ub_blinding_factor_out]; [by left|].
    right. by rewrite length_write_at0, length_vec_resize.
Qed.

End UnblindCases.

(** * More of multi-output blinding *)

Section BlindMore.
Context {H : Host}.
Variables (input_blinding_factors output_blinding_factors : list bytes).
Variable output_pubkeys : list CPubKey.
Variable tx : CMutableTransaction.

(** X6: a call returns only if everything asserted in lines 63-96 held of
    its arguments; so no call on arguments that violate the caller's
    contract returns. *)
Theorem BlindOutputs_returns_only_asserted (rng : Rng) (f : frame) :
  BlindOutputs input_blinding_factors output_blinding_factors output_pubkeys
    tx rng = Returned f ->
  asserted input_blinding_factors output_blinding_factors output_pubkeys tx /\
  ~ fatal_violation input_blinding_factors output_blinding_factors
      output_pubkeys tx.
Proof.
  intros Hret.
  destruct (BlindOutputs_checks input_blinding_factors output_blinding_factors
              output_pubkeys tx rng) as [[Has _] | [_ (f' & Hab & _)]];
    [|congruence].
  split; [exact Has | by apply asserted_excludes_violation].
Qed.

Lemma fmap_scriptPubKey_set_nValue (k : nat) (v : CTxOutValue)
    (l : list CTxOut) :
  scriptPubKey <$> set_nValue k v l = scriptPubKey <$> l.
Proof.
  unfold set_nValue. revert k.
  induction l as [|o l IH]; intros [|k]; cbn; try done. by rewrite IH.
Qed.

(** X7: however the call ends, the transaction has as many outputs as
    before and each output has the script it had. *)
Theorem BlindOutputs_scripts_unchanged (rng : Rng) :
  scriptPubKey <$>
    f_vout (state_of (BlindOutputs input_blinding_factors
                        output_blinding_factors output_pubkeys tx rng))
  = scriptPubKey <$> vout tx /\
  length (f_vout (state_of (BlindOutputs input_blinding_factors
                              output_blinding_factors output_pubkeys tx rng)))
  = length (vout tx).
Proof.
  assert (Hs : scriptPubKey <$>
             f_vout (state_of (BlindOutputs input_blinding_factors
                        output_blinding_factors output_pubkeys tx rng))
           = scriptPubKey <$> vout tx).
  { destruct (BlindOutputs_checks input_blinding_factors
                output_blinding_factors output_pubkeys tx rng)
      as [[_ ->] | [_ (f & -> & Hv & _)]]; [|by cbn; rewrite Hv].
    pose proof (for_loop_invariant
      (fun _ (s : frame) =>
         fmap (M:=list) scriptPubKey (f_vout s)
         = fmap (M:=list) scriptPubKey (vout tx))
      (fun s : frame =>
         fmap (M:=list) scriptPubKey (f_vout s)
         = fmap (M:=list) scriptPubKey (vout tx))
      (blind_body output_pubkeys) (length (vout tx))
      (entry_frame input_blinding_factors output_blinding_factors
         output_pubkeys tx rng) eq_refl) as Hl.
    destruct (for_loop _ _ _) as [f|f]; cbn [state_of]; apply Hl;
      intros k s _ Hs;
      destruct (blind_body_vout output_pubkeys k s)
        as [Hsame | (o & pk & v & _ & _ & _ & _ & Hset)];
      destruct (blind_body output_pubkeys k s) as [s'|s'];
      cbn [state_of] in *;
      rewrite ?Hsame, ?Hset, ?fmap_scriptPubKey_set_nValue; exact Hs. }
  split; [exact Hs|].
  apply (f_equal length) in Hs. by rewrite !length_fmap in Hs.
Qed.

Lemma to_blind_below_nil (n k : nat) :
  to_blind_below output_pubkeys tx n = [] -> k < n ->
  to_blind output_pubkeys tx k = false.
Proof.
  intros Hnil Hk. destruct (to_blind output_pubkeys tx k) eqn:E; [|done].
  assert (Hin : k ∈ to_blind_below output_pubkeys tx n).
  { unfold to_blind_below. apply list_elem_of_filter. split; [done|].
    apply elem_of_seq. lia. }
  rewrite Hnil in Hin. by apply elem_of_nil in Hin.
Qed.

Lemma blind_loop_skips (n : nat) (f0 : frame) :
  f_vout f0 = vout tx ->
  n <= length (vout tx) -> n <= length output_pubkeys ->
  (forall k, k < n -> to_blind output_pubkeys tx k = false) ->
  for_loop n (blind_body output_pubkeys) f0 = Returned f0.
Proof.
  intros Hv. induction n as [|n IH]; intros Ho Hp Hno; [done|].
  cbn [for_loop]. rewrite IH by (try lia; intros; apply Hno; lia). cbn [bind].
  destruct (lookup_lt_is_Some_2 (vout tx) n ltac:(lia)) as [out Eo].
  destruct (lookup_lt_is_Some_2 output_pubkeys n ltac:(lia)) as [pk Ep].
  pose proof (Hno n ltac:(lia)) as Hf. unfold to_blind in Hf.
  rewrite Eo, Ep in Hf. unfold blind_body. rewrite Hv, Eo.
  destruct (IsAmount (nValue out)); cbn [negb]; [|done].
  rewrite Ep. cbn [andb] in Hf. by rewrite Hf.
Qed.

(** X8: when everything asserted holds and no output is to be blinded, the
    call returns with the outputs as they were, having called neither the
    library nor the random source; the factors collected are those
    supplied. *)
Theorem BlindOutputs_nothing_to_blind (rng : Rng) :
  asserted input_blinding_factors output_blinding_factors output_pubkeys tx ->
  to_blind_below output_pubkeys tx (length (vout tx)) = [] ->
  exists f,
    BlindOutputs input_blinding_factors output_blinding_factors output_pubkeys
      tx rng = Returned f /\
    f_vout f = vout tx /\ f_calls f = [] /\ f_rng f = rng /\
    f_blindptrs f
    = present input_blinding_factors ++ present output_blinding_factors.
Proof.
  intros Has Hnil.
  destruct (BlindOutputs_checks input_blinding_factors output_blinding_factors
              output_pubkeys tx rng) as [[_ Hrun] | [Hno _]]; [|done].
  destruct Has as (_ & L2 & _).
  exists (entry_frame input_blinding_factors output_blinding_factors
            output_pubkeys tx rng).
  split; [|done].
  rewrite Hrun. apply blind_loop_skips; [done | lia | lia |].
  intros k Hk. by apply (to_blind_below_nil (length (vout tx))).
Qed.

(** What the loop leaves in every output it has blinded, with the
    assertions that held on the way. *)
Lemma blind_loop_shape (n : nat) (f : frame) (rng : Rng) :
  for_loop n (blind_body output_pubkeys)
    (entry_frame input_blinding_factors output_blinding_factors
       output_pubkeys tx rng) = Returned f ->
  forall i, i < n -> to_blind output_pubkeys tx i = true ->
    exists out pk blind g,
      vout tx !! i = Some out /\ output_pubkeys !! i = Some pk /\
      blinding_asserted pk blind g (nValue out) /\
      f_vout f !! i
      = Some (mkCTxOut (blinded_value pk blind g (nValue out))
                (scriptPubKey out)).
Proof.
  apply (blind_loop_invariant output_pubkeys tx (fun k s =>
    forall i, i < k -> to_blind output_pubkeys tx i = true ->
      exists out pk blind g,
        vout tx !! i = Some out /\ output_pubkeys !! i = Some pk /\
        blinding_asserted pk blind g (nValue out) /\
        f_vout s !! i
        = Some (mkCTxOut (blinded_value pk blind g (nValue out))
                  (scriptPubKey out)))); [reflexivity | | ].
  - intros i Hi. lia.
  - intros k s s' Hk Hfr Hinv Hb.
    apply blind_body_Returned in Hb.
    destruct Hb as [[-> Hno] | (out & pk & Eo & Ea & Ep & Ev & Hb)].
    + pose proof (to_blind_false output_pubkeys tx k s Hfr Hno) as Hf.
      intros i Hi Hi'. destruct (decide (i = k)) as [->|]; [congruence|].
      apply Hinv; [lia | done].
    + cbv zeta in Hb. destruct Hb as (_ & Hcom & Hres & Hlen & ->).
      intros i Hi Hi'. cbn [f_vout].
      destruct (decide (i = k)) as [->|Hne].
      * exists out, pk. do 2 eexists.
        split; [by rewrite <- Hfr|]. split; [done|]. split.
        -- unfold blinding_asserted. cbv zeta. done.
        -- rewrite (lookup_set_nValue_eq _ _ _ _ Eo).
           unfold blinded_value. cbv zeta. reflexivity.
      * destruct (Hinv i ltac:(lia) Hi') as (o & p & b & g & E1 & E2 & Has & Hv).
        exists o, p, b, g. split; [done|]. split; [done|]. split; [done|].
        by rewrite lookup_set_nValue_ne by done.
Qed.

(** X9: when the call returns, an output that was to be blinded keeps its
    script and holds a value built by lines 114-132 for some factor: the
    commitment vector has the length it had, the nonce commitment has 33
    bytes, and both the commitment and the signing reported success. *)
Theorem BlindOutputs_blinded_output (rng : Rng) (f : frame) (i : nat)
    (out : CTxOut) :
  BlindOutputs input_blinding_factors output_blinding_factors output_pubkeys
    tx rng = Returned f ->
  vout tx !! i = Some out ->
  to_blind output_pubkeys tx i = true ->
  exists pk blind g,
    output_pubkeys !! i = Some pk /\
    blinding_asserted pk blind g (nValue out) /\
    f_vout f !! i
    = Some (mkCTxOut (blinded_value pk blind g (nValue out))
              (scriptPubKey out)) /\
    length (vchCommitment (blinded_value pk blind g (nValue out)))
    = length (vchCommitment (nValue out)) /\
    length (vchNonceCommitment (blinded_value pk blind g (nValue out))) = 33.
Proof.
  intros Hret Eo Ht.
  destruct (BlindOutputs_checks input_blinding_factors output_blinding_factors
              output_pubkeys tx rng) as [[_ Hrun] | [_ (f' & Hab & _)]];
    [|congruence].
  rewrite Hrun in Hret.
  assert (Hlt : i < length (vout tx)) by (eapply lookup_lt_Some, Eo).
  destruct (blind_loop_shape _ f rng Hret i Hlt Ht)
    as (o & pk & blind & g & E1 & E2 & Has & Hv).
  rewrite Eo in E1. simplify_eq.
  exists pk, blind, g. split; [done|]. split; [done|]. split; [done|].
  unfold blinded_value. cbv zeta. cbn [vchCommitment vchNonceCommitment].
  split; [apply length_write_at0|].
  unfold memcpy. by rewrite length_write_at0, length_vec_resize.
Qed.

End BlindMore.

Section BlindOrder.
Context {H : Host}.
Variables (input_blinding_factors output_blinding_factors : list bytes).
Variable output_pubkeys : list CPubKey.
Variable tx : CMutableTransaction.

Lemma blind_loop_order (n : nat) (f : frame) (rng : Rng) :
  for_loop n (blind_body output_pubkeys)
    (entry_frame input_blinding_factors output_blinding_factors
       output_pubkeys tx rng) = Returned f ->
  committed_outputs (f_calls f) = to_blind_below output_pubkeys tx n /\
  signed_outputs (f_calls f) = to_blind_below output_pubkeys tx n.
Proof.
  apply (blind_loop_invariant output_pubkeys tx (fun k s =>
    committed_outputs (f_calls s) = to_blind_below output_pubkeys tx k /\
    signed_outputs (f_calls s) = to_blind_below output_pubkeys tx k));
    [reflexivity | done | ].
  intros k s s' Hk Hfr [Hc Hs] Hb. rewrite to_blind_below_S.
  apply blind_body_Returned in Hb.
  destruct Hb as [[-> Hno] | (out & pk & Eo & Ea & Ep & Ev & Hb)].
  - rewrite (to_blind_false output_pubkeys tx k s Hfr Hno), app_nil_r. done.
  - rewrite (to_blind_of_lookup output_pubkeys tx k s out pk Hfr Eo Ep), Ea, Ev.
    cbv zeta in Hb. destruct Hb as (_ & _ & _ & _ & ->). cbn [f_calls andb].
    unfold committed_outputs, signed_outputs in *.
    rewrite !omap_app, Hc, Hs.
    destruct (f_nBlinded s + 1 =? f_nToBlind s); done.
Qed.

(** X11: when the call returns, commitments were computed and range proofs
    signed for exactly the outputs to be blinded, once each and in
    ascending order of output index. *)
Theorem BlindOutputs_processing_order (rng : Rng) (f : frame) :
  BlindOutputs input_blinding_factors output_blinding_factors output_pubkeys
    tx rng = Returned f ->
  committed_outputs (f_calls f)
  = to_blind_below output_pubkeys tx (length (vout tx)) /\
  signed_outputs (f_calls f)
  = to_blind_below output_pubkeys tx (length (vout tx)).
Proof.
  intros Hret.
  destruct (BlindOutputs_checks input_blinding_factors output_blinding_factors
              output_pubkeys tx rng) as [[_ Hrun] | [_ (f' & Hab & _)]];
    [|congruence].
  rewrite Hrun in Hret. by apply blind_loop_order in Hret.
Qed.

(** X10: when exactly one output is to be blinded, its factor is not drawn
    from the random source: the output is blinded with the blind sum of the
    factors supplied, which is what its commitment and its range proof were
    made under.  With no factor supplied on either side it is the sum of
    nothing, the scalar 0. *)
Theorem BlindOutputs_single_factor_not_random `{!BlindSum H} (rng : Rng)
    (f : frame) (e : nat) :
  BlindOutputs input_blinding_factors output_blinding_factors output_pubkeys
    tx rng = Returned f ->
  to_blind_below output_pubkeys tx (length (vout tx)) = [e] ->
  exists derived,
    derived
    = (secp256k1_pedersen_blind_sum
         (present input_blinding_factors ++ present output_blinding_factors)
         (length (present output_blinding_factors)
          + length (present input_blinding_factors))
         (length (present input_blinding_factors))).2 /\
    blinded_with output_pubkeys tx f e derived /\
    factor_calls (f_calls f)
    = [Call_blind_sum e
         (present input_blinding_factors ++ present output_blinding_factors)
         (length (present output_blinding_factors)
          + length (present input_blinding_factors))
         (length (present input_blinding_factors)) derived] /\
    f_blindptrs f
    = present input_blinding_factors ++ present output_blinding_factors
      ++ [derived] /\
    (present input_blinding_factors = [] ->
     present output_blinding_factors = [] -> scalar derived = 0%Z).
Proof.
  intros Hret HE.
  destruct (BlindOutputs_checks input_blinding_factors output_blinding_factors
              output_pubkeys tx rng) as [[_ Hrun] | [_ (f' & Hab & _)]];
    [|congruence].
  rewrite Hrun in Hret.
  destruct (blind_loop_outputs _ _ _ _ _ f rng Hret)
    as (news' & Hptrs' & Hall).
  apply blind_loop_factors in Hret.
  destruct Hret as (news & Hln & Hptrs & [Hz | Hlast]).
  { rewrite HE in Hz. done. }
  destruct Hlast as (init & e' & rands & HE' & Hlr & Hok & -> & Hfc).
  rewrite Hptrs in Hptrs'. do 2 apply app_inv_head in Hptrs'. subst news'.
  rewrite HE in HE', Hall.
  assert (init = [] /\ e' = e) as [-> ->].
  { destruct init as [|a [|b init]]; cbn in HE'; by simplify_eq. }
  destruct rands; [|done]. clear Hlr.
  rewrite app_nil_r, Nat.add_0_r in *. cbn [zip_with app] in *.
  apply Forall2_cons in Hall. destruct Hall as [[_ Hw] _].
  eexists. split; [reflexivity|]. split; [exact Hw|].
  split; [exact Hfc|]. split; [exact Hptrs|].
  intros Hi Ho. rewrite Hi, Ho in *. cbn [app length Nat.add] in *.
  pose proof (blind_sum_balances [] 0 ltac:(done) Hok) as Hbal.
  cbn in Hbal. rewrite Z.add_0_r in Hbal.
  unfold scalar in *. by rewrite Zmod_mod in Hbal.
Qed.

End BlindOrder.

(** * The context lifecycle *)

Section Lifecycle.
Context {L : ContextLib}.

Lemma land_lor_l (a b : Z) : Z.land (Z.lor a b) a = a.
Proof.
  apply Z.bits_inj'. intros n _. rewrite Z.land_spec, Z.lor_spec.
  by destruct (Z.testbit a n), (Z.testbit b n).
Qed.

Lemma land_lor_r (a b : Z) : Z.land (Z.lor a b) b = b.
Proof. rewrite Z.lor_comm. apply land_lor_l. Qed.

Lemma land_lor_above (a b c : Z) :
  Z.land a c = c -> Z.land (Z.lor a b) c = c.
Proof.
  intros Hc. apply Z.bits_inj'. intros n _.
  apply (f_equal (fun z => Z.testbit z n)) in Hc.
  rewrite Z.land_spec in Hc. rewrite Z.land_spec, Z.lor_spec.
  by destruct (Z.testbit a n), (Z.testbit b n), (Z.testbit c n).
Qed.

(** X12: a start that returns has asked the library, while no context was
    held, for one context with all four capability flags, holds the context
    it got and has changed nothing else; a second start then stops at the
    assertion of line 13 without calling the library. *)
Theorem ECC_Blinding_Start_once (s s1 : ecc_state) :
  ECC_Blinding_Start s = Returned s1 ->
  secp256k1_context s = None /\
  (exists flags c,
     ECC_Blinding_Context s1 = Some c /\
     secp256k1_context_create flags (ecc_lib s) = (Some c, ecc_lib s1) /\
     ecc_calls s1 = ecc_calls s ++ [Call_create flags (Some c)] /\
     Z.land flags SECP256K1_CONTEXT_SIGN = SECP256K1_CONTEXT_SIGN /\
     Z.land flags SECP256K1_CONTEXT_VERIFY = SECP256K1_CONTEXT_VERIFY /\
     Z.land flags SECP256K1_CONTEXT_COMMIT = SECP256K1_CONTEXT_COMMIT /\
     Z.land flags SECP256K1_CONTEXT_RANGEPROOF = SECP256K1_CONTEXT_RANGEPROOF) /\
  ECC_Blinding_Start s1 = Aborted s1.
Proof.
  unfold ECC_Blinding_Start, ECC_Blinding_Context.
  destruct (secp256k1_context s) eqn:Es; [discriminate|]. cbv zeta.
  destruct (secp256k1_context_create _ (ecc_lib s)) as [[c|] l] eqn:Ec;
    cbn [fst snd]; [|discriminate].
  intros [= <-]. cbn [secp256k1_context ecc_lib ecc_calls].
  split; [done|]. split; [|done].
  eexists _, c. split; [done|]. split; [exact Ec|]. split; [done|].
  split; [|split; [|split]].
  - do 2 apply land_lor_above. apply land_lor_l.
  - do 2 apply land_lor_above. apply land_lor_r.
  - apply land_lor_above. apply land_lor_r.
  - apply land_lor_r.
Qed.

(** X13: a stop leaves no context held; it destroys the context that was
    held, once, and calls nothing when none was; stopping again changes
    nothing. *)
Theorem ECC_Blinding_Stop_idempotent (s : ecc_state) :
  ECC_Blinding_Context (ECC_Blinding_Stop s) = None /\
  ecc_calls (ECC_Blinding_Stop s)
  = ecc_calls s ++ match secp256k1_context s with
                   | Some c => [Call_destroy c]
                   | None => []
                   end /\
  (secp256k1_context s = None -> ECC_Blinding_Stop s = s) /\
  ECC_Blinding_Stop (ECC_Blinding_Stop s) = ECC_Blinding_Stop s.
Proof.
  unfold ECC_Blinding_Stop, ECC_Blinding_Context.
  destruct s as [[c|] l calls]; cbn; rewrite ?app_nil_r; by repeat split.
Qed.

(** X14: a start followed by a stop destroys the very context it created
    and ends with none held; a start that follows gets past the assertion
    of line 13 and asks the library for a context again. *)
Theorem ECC_Blinding_Start_Stop (s s1 : ecc_state) :
  ECC_Blinding_Start s = Returned s1 ->
  exists flags c,
    ecc_calls (ECC_Blinding_Stop s1)
    = ecc_calls s ++ [Call_create flags (Some c); Call_destroy c] /\
    secp256k1_context (ECC_Blinding_Stop s1) = None /\
    exists r,
      ecc_calls (state_of (ECC_Blinding_Start (ECC_Blinding_Stop s1)))
      = ecc_calls (ECC_Blinding_Stop s1) ++ [Call_create flags r].
Proof.
  unfold ECC_Blinding_Start at 1.
  destruct (secp256k1_context s) eqn:Es; [discriminate|]. cbv zeta.
  destruct (secp256k1_context_create _ (ecc_lib s)) as [[c|] l] eqn:Ec;
    cbn [fst snd]; [|discriminate].
  intros [= <-]. eexists _, c. cbn. rewrite <- app_assoc.
  split; [done|]. split; [done|].
  unfold ECC_Blinding_Start. cbn. cbv zeta.
  destruct (secp256k1_context_create _ (secp256k1_context_destroy c l))
    as [[c'|] l']; cbn; eexists; reflexivity.
Qed.

(** X15: whatever sequence of starts and stops a caller makes, up to the
    first one that stops at an assertion, the library is asked to create a
    context only while none is held and to destroy only the one held: no
    context is destroyed twice and none but the one held is left alive. *)
Theorem ecc_run_well_paired (ops : list ecc_op) (s : ecc_state) :
  well_paired (ecc_calls s) (secp256k1_context s) ->
  well_paired (ecc_calls (state_of (ecc_run ops s)))
    (secp256k1_context (state_of (ecc_run ops s))).
Proof.
  revert s. induction ops as [|op ops IH]; intros s Hwp; [done|].
  cbn [ecc_run]. destruct op; cbn [ecc_step].
  - unfold ECC_Blinding_Start.
    destruct (secp256k1_context s) eqn:Es; [cbn; by rewrite Es|]. cbv zeta.
    destruct (secp256k1_context_create _ (ecc_lib s)) as [[c|] l];
      cbn [fst snd bind state_of].
    + apply IH. cbn. by apply wp_create.
    + cbn. by apply wp_create_failed.
  - cbn [bind]. apply IH. unfold ECC_Blinding_Stop.
    destruct (secp256k1_context s) eqn:Es; cbn.
    + by apply wp_destroy.
    + done.
Qed.

End Lifecycle.

(** * More runs of the model *)

Section MoreExamples.
Import Reference.

Lemma returned_asserted {H : Host} (ibf obf : list bytes)
    (pks : list CPubKey) (tx : CMutableTransaction) (rng : Rng) :
  returned (BlindOutputs ibf obf pks tx rng) = true ->
  asserted ibf obf pks tx.
Proof.
  intros Hr.
  destruct (BlindOutputs_checks ibf obf pks tx rng)
    as [[Has _] | [_ (f & Hab & _)]]; [done|].
  rewrite Hab in Hr. discriminate.
Qed.

Lemma UnblindOutput_failed_rewind_clears_witness :
  (ub_ret (@UnblindOutput host0 key5 unrewindable_out 7 [Byte.x01]) = 0%Z
   <-> rw_res (@rewound host0 key5 unrewindable_out) = 0%Z) /\
  (ub_ret (@UnblindOutput host0 key5 unrewindable_out 7 [Byte.x01]) = 0%Z ->
   ub_amount_out (@UnblindOutput host0 key5 unrewindable_out 7 [Byte.x01])
   = 0%Z /\
   ub_blinding_factor_out
     (@UnblindOutput host0 key5 unrewindable_out 7 [Byte.x01]) = []).
Proof.
  apply (@UnblindOutput_failed_rewind_clears host0 key5 unrewindable_out 7
           [Byte.x01]); reflexivity.
Defined.

Lemma UnblindOutput_success_witness :
  ub_ret (@UnblindOutput host0 key5 rewindable_out 7 [Byte.x01]) = 1%Z /\
  ub_amount_out (@UnblindOutput host0 key5 rewindable_out 7 [Byte.x01])
  = to_int64 (rw_amount (@rewound host0 key5 rewindable_out)) /\
  length (ub_blinding_factor_out
            (@UnblindOutput host0 key5 rewindable_out 7 [Byte.x01])) = 32 /\
  (length (rw_blind (@rewound host0 key5 rewindable_out)) = 32 ->
   ub_blinding_factor_out
     (@UnblindOutput host0 key5 rewindable_out 7 [Byte.x01])
   = rw_blind (@rewound host0 key5 rewindable_out)).
Proof.
  apply (@UnblindOutput_success host0 key5 rewindable_out 7 [Byte.x01]).
  - reflexivity.
  - reflexivity.
  - vm_compute. discriminate.
  - vm_compute. discriminate.
  - vm_compute. reflexivity.
Defined.

Lemma UnblindOutput_amount_in_range_witness :
  ub_amount_out (@UnblindOutput host0 key5 tampered_out 7 [Byte.x01]) = 0%Z
  \/ (@MoneyRange host0
        (ub_amount_out (@UnblindOutput host0 key5 tampered_out 7 [Byte.x01]))
      = true /\
      ub_ret (@UnblindOutput host0 key5 tampered_out 7 [Byte.x01]) = 1%Z /\
      length (ub_blinding_factor_out
                (@UnblindOutput host0 key5 tampered_out 7 [Byte.x01])) = 32).
Proof.
  apply (@UnblindOutput_amount_in_range host0 key5 tampered_out 7 [Byte.x01]);
    reflexivity.
Defined.

Lemma UnblindOutput_factor_length_witness :
  (length (ub_blinding_factor_out
             (@UnblindOutput host0 key5 rewindable_out 7 [Byte.x01])) = 0 \/
   length (ub_blinding_factor_out
             (@UnblindOutput host0 key5 rewindable_out 7 [Byte.x01])) = 32) /\
  (@IsAmount host0 (nValue rewindable_out) = true ->
   ub_blinding_factor_out
     (@UnblindOutput host0 key5 rewindable_out 7 [Byte.x01]) = []).
Proof.
  apply (@UnblindOutput_factor_length host0 key5 rewindable_out 7 [Byte.x01]).
  right. reflexivity.
Defined.

Lemma BlindOutputs_returns_only_asserted_witness :
  @asserted host0 ibf1 obf3 pks3 tx3 /\
  ~ @fatal_violation host0 ibf1 obf3 pks3 tx3.
Proof.
  assert (Hb : returned (@BlindOutputs host0 ibf1 obf3 pks3 tx3 0) = true)
    by (vm_compute; reflexivity).
  exact (@BlindOutputs_returns_only_asserted host0 ibf1 obf3 pks3 tx3 0 run3
           (returned_state _ Hb)).
Defined.

Lemma BlindOutputs_nothing_to_blind_witness :
  exists f,
    @BlindOutputs host0 [] [[]] [[]] tx1_plain 0 = Returned f /\
    f_vout f = vout tx1_plain /\ f_calls f = [] /\ f_rng f = 0 /\
    f_blindptrs f = present [] ++ present [[]].
Proof.
  assert (Hb : returned (@BlindOutputs host0 [] [[]] [[]] tx1_plain 0) = true)
    by (vm_compute; reflexivity).
  apply (@BlindOutputs_nothing_to_blind host0 [] [[]] [[]] tx1_plain 0).
  - exact (returned_asserted _ _ _ _ _ Hb).
  - vm_compute. reflexivity.
Defined.

Lemma BlindOutputs_blinded_output_witness :
  exists pk blind g,
    pks3 !! 0 = Some pk /\
    @blinding_asserted host0 pk blind g (nValue (explicit_out 1000)) /\
    f_vout run3 !! 0
    = Some (mkCTxOut (@blinded_value host0 pk blind g
                        (nValue (explicit_out 1000)))
              (scriptPubKey (explicit_out 1000))) /\
    length (vchCommitment (@blinded_value host0 pk blind g
                             (nValue (explicit_out 1000))))
    = length (vchCommitment (nValue (explicit_out 1000))) /\
    length (vchNonceCommitment (@blinded_value host0 pk blind g
                                  (nValue (explicit_out 1000)))) = 33.
Proof.
  assert (Hb : returned (@BlindOutputs host0 ibf1 obf3 pks3 tx3 0) = true)
    by (vm_compute; reflexivity).
  apply (@BlindOutputs_blinded_output host0 ibf1 obf3 pks3 tx3 0 run3 0
           (explicit_out 1000) (returned_state _ Hb)); reflexivity.
Defined.

Lemma BlindOutputs_processing_order_witness :
  committed_outputs (f_calls run3)
  = @to_blind_below host0 pks3 tx3 (length (vout tx3)) /\
  signed_outputs (f_calls run3)
  = @to_blind_below host0 pks3 tx3 (length (vout tx3)).
Proof.
  assert (Hb : returned (@BlindOutputs host0 ibf1 obf3 pks3 tx3 0) = true)
    by (vm_compute; reflexivity).
  exact (@BlindOutputs_processing_order host0 ibf1 obf3 pks3 tx3 0 run3
           (returned_state _ Hb)).
Defined.

Lemma BlindOutputs_single_factor_not_random_witness :
  exists derived,
    derived
    = (@secp256k1_pedersen_blind_sum host0 (present [] ++ present [[]])
         (length (present [[]]) + length (present []))
         (length (present []))).2 /\
    @blinded_with host0 [ref_pubkey key21] tx1
      (state_of (@BlindOutputs host0 [] [[]] [ref_pubkey key21] tx1 0))
      0 derived /\
    factor_calls
      (f_calls (state_of (@BlindOutputs host0 [] [[]] [ref_pubkey key21]
                            tx1 0)))
    = [Call_blind_sum 0 (present [] ++ present [[]])
         (length (present [[]]) + length (present []))
         (length (present [])) derived] /\
    f_blindptrs (state_of (@BlindOutputs host0 [] [[]] [ref_pubkey key21]
                             tx1 0))
    = present [] ++ present [[]] ++ [derived] /\
    (present [] = [] -> present [[]] = [] -> scalar derived = 0%Z).
Proof.
  assert (Hb : returned (@BlindOutputs host0 [] [[]] [ref_pubkey key21]
                           tx1 0) = true)
    by (vm_compute; reflexivity).
  apply (@BlindOutputs_single_factor_not_random host0 [] [[]]
           [ref_pubkey key21] tx1 (ref_BlindSum no_config) 0 _ 0
           (returned_state _ Hb)).
  vm_compute. reflexivity.
Defined.

Lemma ECC_Blinding_Start_once_witness :
  secp256k1_context ecc_initial = None /\
  (exists flags c,
     ECC_Blinding_Context (state_of (ECC_Blinding_Start ecc_initial)) = Some c /\
     @secp256k1_context_create ref_context_lib flags (ecc_lib ecc_initial)
     = (Some c, ecc_lib (state_of (ECC_Blinding_Start ecc_initial))) /\
     ecc_calls (state_of (ECC_Blinding_Start ecc_initial))
     = ecc_calls ecc_initial ++ [Call_create flags (Some c)] /\
     Z.land flags (@SECP256K1_CONTEXT_SIGN ref_context_lib)
     = @SECP256K1_CONTEXT_SIGN ref_context_lib /\
     Z.land flags (@SECP256K1_CONTEXT_VERIFY ref_context_lib)
     = @SECP256K1_CONTEXT_VERIFY ref_context_lib /\
     Z.land flags (@SECP256K1_CONTEXT_COMMIT ref_context_lib)
     = @SECP256K1_CONTEXT_COMMIT ref_context_lib /\
     Z.land flags (@SECP256K1_CONTEXT_RANGEPROOF ref_context_lib)
     = @SECP256K1_CONTEXT_RANGEPROOF ref_context_lib) /\
  ECC_Blinding_Start (state_of (ECC_Blinding_Start ecc_initial))
  = Aborted (state_of (ECC_Blinding_Start ecc_initial)).
Proof.
  apply (@ECC_Blinding_Start_once ref_context_lib ecc_initial
           (state_of (ECC_Blinding_Start ecc_initial))).
  reflexivity.
Defined.

Lemma ECC_Blinding_Start_Stop_witness :
  exists flags c,
    ecc_calls (ECC_Blinding_Stop (state_of (ECC_Blinding_Start ecc_initial)))
    = ecc_calls ecc_initial ++ [Call_create flags (Some c); Call_destroy c] /\
    secp256k1_context
      (ECC_Blinding_Stop (state_of (ECC_Blinding_Start ecc_initial))) = None /\
    exists r,
      ecc_calls (state_of (ECC_Blinding_Start
                   (ECC_Blinding_Stop
                      (state_of (ECC_Blinding_Start ecc_initial)))))
      = ecc_calls (ECC_Blinding_Stop
                     (state_of (ECC_Blinding_Start ecc_initial)))
        ++ [Call_create flags r].
Proof.
  apply (@ECC_Blinding_Start_Stop ref_context_lib ecc_initial
           (state_of (ECC_Blinding_Start ecc_initial))).
  reflexivity.
Defined.

Lemma ecc_run_well_paired_witness :
  well_paired
    (ecc_calls (state_of (ecc_run [OpStart; OpStop; OpStop; OpStart; OpStart]
                            ecc_initial)))
    (secp256k1_context
       (state_of (ecc_run [OpStart; OpStop; OpStop; OpStart; OpStart]
                    ecc_initial))).
Proof.
  apply (@ecc_run_well_paired ref_context_lib
           [OpStart; OpStop; OpStop; OpStart; OpStart] ecc_initial).
  apply wp_nil.
Defined.

(** The run of the witness above: the last start stops at the assertion,
    with the second context still held. *)
Example ecc_run_example :
  ecc_run [OpStart; OpStop; OpStop; OpStart; OpStart] ecc_initial
  = Aborted (mkEcc ref_context_lib (Some 1) 2
               [@Call_create ref_context_lib 387 (Some 0);
                @Call_destroy ref_context_lib 0;
                @Call_create ref_context_lib 387 (Some 1)]).
Proof. reflexivity. Qed.

End MoreExamples.
